(** * Cardano_Rag: the paid question-answering service

    A shallow embedding of [rag/vector_store.py] and of the job
    orchestration of [main.py] ([start_job], [handle_payment_status],
    [get_status], [execute_rag_task]), with the properties of the
    natural-language specification stated over it.

    Conventions.
    - A Python [str] is the list of its Unicode code points, a [list N].
    - A call that may raise returns a [PyResult]: [Ok v] or [Raise e].
    - The collaborators outside the repository (the payment provider, the
      embedding and generation services, the uuid source) are inputs of the
      operation that calls them: each call site receives the outcome of its
      call as an argument.
    - Two tables of the platform are parameters: the float32 arithmetic of
      the index outside the range where it is exact ([Float32]) and the
      printable characters beyond ASCII ([UnicodeData]).
    - Every request handler runs from start to end without interleaving with
      another one. *)

From Stdlib Require Import ZArith NArith Lia PrimFloat Ascii String DecimalString.
From stdpp Require Import base option list gmap sorting.

Local Open Scope Z_scope.

(** ** Python strings *)

(** The code points of an ASCII literal. *)
Definition py (s : String.string) : list N :=
  List.map Ascii.N_of_ascii (String.list_ascii_of_string s).
Arguments py s%_string : simpl never.

(** ** Exceptions and fallible calls *)

Inductive PyExc : Type :=
  | KeyError (key : list N)
  | ValueError (msg : list N)          (* ValueError and its subclasses *)
  | TypeError (msg : list N)
  | AttributeError (msg : list N)
  | IndexError (msg : list N)
  | AssertionError
  | HTTPException (status_code : Z) (detail : list N)
  | Exception (msg : list N).          (* any other subclass of Exception *)

(** [isinstance(e, ValueError)], the test of [except ValueError]. *)
Definition is_ValueError (e : PyExc) : bool :=
  match e with ValueError _ => true | _ => false end.

(** [isinstance(e, KeyError)], the test of [except KeyError]. *)
Definition is_KeyError (e : PyExc) : bool :=
  match e with KeyError _ => true | _ => false end.

(** [str(n)] for an integer. *)
Definition int_str (n : Z) : list N :=
  py (NilZero.string_of_int (Z.to_int n)).

Inductive PyResult (A : Type) : Type :=
  | Ok (a : A)
  | Raise (e : PyExc).
Arguments Ok {A} a.
Arguments Raise {A} e.

Global Instance PyResult_ret : MRet PyResult := fun A a => Ok a.
Global Instance PyResult_bind : MBind PyResult := fun A B f m =>
  match m with Ok a => f a | Raise e => Raise e end.

Definition is_Ok {A} (r : PyResult A) : bool :=
  match r with Ok _ => true | Raise _ => false end.

(** [xs[i]] on a Python list: a negative index counts from the end. *)
Definition list_getitem {A} (xs : list A) (i : Z) : PyResult A :=
  let n := Z.of_nat (length xs) in
  let j := if i <? 0 then i + n else i in
  if (j <? 0) || (n <=? j) then Raise (IndexError (py "list index out of range"))
  else match xs !! Z.to_nat j with
       | Some x => Ok x
       | None => Raise (IndexError (py "list index out of range"))
       end.

(** A list comprehension whose body may raise. *)
Fixpoint list_comp {A B} (f : A → PyResult B) (xs : list A) : PyResult (list B) :=
  match xs with
  | [] => Ok []
  | x :: xs' => y ← f x; ys ← list_comp f xs'; Ok (y :: ys)
  end.

(** ** The flat L2 index of the faiss library

    [faiss.IndexFlatL2] is not part of the repository.  It is modelled by
    what its interface promises: vectors are kept in insertion order, [add]
    and [search] assert the dimension, and [search] returns exactly [k]
    labels, the ids of the nearest vectors by ascending squared L2 distance
    (equal distances by ascending id), the missing ones being [-1].

    The index computes in float32.  Coordinates are integers here.  When
    the squares of the coordinates of the two vectors sum to less than 2^22
    ([exact_range]), every coordinate, difference, product and partial sum
    of the computation is an integer below 2^24 in absolute value; float32
    holds these exactly, so the distance computed is the exact one, in
    whatever order the kernel of the library adds.  Outside this range the
    result depends on the rounding and on the kernel; it is the parameter
    [rounded_L2sqr]: [Some dist] for a distance below the largest float,
    [None] when the computation overflows or gives no number.  A record
    without distance is never reported by a search.  [xb] keeps the rows as
    they were passed to [add]; their cast to float32 is part of the
    computation of the distance. *)
Class Float32 : Type := { rounded_L2sqr : list Z → list Z → option Z }.

Module faiss.

Record IndexFlatL2 : Type := mkIndex {
  d : Z;                 (* the dimension given to the constructor *)
  xb : list (list Z)     (* the stored vectors, by id *)
}.

Definition new (dim : Z) : IndexFlatL2 := {| d := dim; xb := [] |}.

Definition ntotal (self : IndexFlatL2) : Z := Z.of_nat (length (xb self)).

(** [self.add(x)] for a one-row matrix [x]. *)
Definition add (self : IndexFlatL2) (x : list Z) : PyResult IndexFlatL2 :=
  if Z.of_nat (length x) =? d self
  then Ok {| d := d self; xb := xb self ++ [x] |}
  else Raise AssertionError.

(** The squared distance and the squared norm in exact arithmetic. *)
Fixpoint exact_L2sqr (x y : list Z) : Z :=
  match x, y with
  | a :: x', b :: y' => (a - b) * (a - b) + exact_L2sqr x' y'
  | _, _ => 0
  end.

Fixpoint norm2 (x : list Z) : Z :=
  match x with
  | [] => 0
  | a :: x' => a * a + norm2 x'
  end.

(** The pairs of vectors on which float32 computes the distance exactly. *)
Definition exact_range (x y : list Z) : bool := norm2 x + norm2 y <? 2 ^ 22.

(** The squared distance as the index computes it, [None] when the record
    cannot be reported. *)
Definition fvec_L2sqr {F : Float32} (x y : list Z) : option Z :=
  if exact_range x y then Some (exact_L2sqr x y) else rounded_L2sqr x y.

(** Insertion behind every entry that is at most as far. *)
Fixpoint insert_by_dist (p : Z * Z) (l : list (Z * Z)) : list (Z * Z) :=
  match l with
  | [] => [p]
  | q :: l' => if q.1 <=? p.1 then q :: insert_by_dist p l' else p :: q :: l'
  end.

(** The pairs (distance, id) of the stored vectors that have a distance,
    nearest first. *)
Fixpoint ranked {F : Float32} (q : list Z) (vs : list (list Z)) (id : Z)
    (acc : list (Z * Z)) : list (Z * Z) :=
  match vs with
  | [] => acc
  | v :: vs' =>
      ranked q vs' (id + 1)
        match fvec_L2sqr q v with
        | Some dist => insert_by_dist (dist, id) acc
        | None => acc
        end
  end.

(** [self.search(x, k)] for a one-row query: the row of labels. *)
Definition search {F : Float32} (self : IndexFlatL2) (x : list Z) (k : Z)
  : PyResult (list Z) :=
  if negb (Z.of_nat (length x) =? d self) then Raise AssertionError
  else if negb (0 <? k) then Raise AssertionError
  else
    let found := take (Z.to_nat k) ((ranked x (xb self) 0 []).*2) in
    Ok (found ++ replicate (Z.to_nat k - length found)%nat (-1)).

End faiss.

(** ** rag/vector_store.py *)

Module VectorStore.

Record t : Type := mk {
  index : faiss.IndexFlatL2;
  chunks : list (list N)
}.

(** [__init__]: text-embedding-004 vectors have 768 coordinates. *)
Definition init : t := {| index := faiss.new 768; chunks := [] |}.

(** [add(self, emb, chunk)].  When [index.add] raises, [chunks] is left as
    it was: the result [Raise] stands for the unchanged store. *)
Definition add (self : t) (emb : list Z) (chunk : list N) : PyResult t :=
  index' ← faiss.add (index self) emb;
  Ok {| index := index'; chunks := chunks self ++ [chunk] |}.

(** [search(self, query_emb, k)]. *)
Definition search {F : Float32} (self : t) (query_emb : list Z) (k : Z)
  : PyResult (list (list N)) :=
  if faiss.ntotal (index self) =? 0 then Ok []
  else
    indices ← faiss.search (index self) query_emb k;
    let valid_indices :=
      filter (λ i, i < Z.of_nat (length (chunks self))) indices in
    list_comp (list_getitem (chunks self)) valid_indices.

(** The two methods as operations on the shared store. *)
Inductive op : Type :=
  | Add (emb : list Z) (chunk : list N)
  | Search (query_emb : list Z) (k : Z).

Definition step (self : t) (o : op) : t :=
  match o with
  | Add emb chunk =>
      match add self emb chunk with Ok self' => self' | Raise _ => self end
  | Search _ _ => self
  end.

Definition run (ops : list op) (self : t) : t := foldl step self ops.

End VectorStore.


(** ** Python values of the JSON universe

    What [json.loads] returns and what the payment provider's client hands
    back: [None], booleans, integers, floats, strings, lists, and dicts with
    string keys, kept in insertion order. *)

#[warnings="-register-all"]
Inductive pyval : Type :=
  | PNone
  | PBool (b : bool)
  | PInt (n : Z)
  | PFloat (f : float)
  | PStr (s : list N)
  | PList (xs : list pyval)
  | PDict (kvs : list (list N * pyval)).

(** The lookup of a key in the items of a dict. *)
Fixpoint dict_lookup (kvs : list (list N * pyval)) (key : list N) : option pyval :=
  match kvs with
  | [] => None
  | (k, v) :: kvs' => if decide (k = key) then Some v else dict_lookup kvs' key
  end.

(** [isinstance(v, dict) and key in v]. *)
Definition is_dict_with (key : list N) (v : pyval) : bool :=
  match v with
  | PDict kvs => bool_decide (is_Some (dict_lookup kvs key))
  | _ => false
  end.

(** [v.get(key, default)]: only a dict has the method. *)
Definition py_get (v : pyval) (key : list N) (dflt : pyval) : PyResult pyval :=
  match v with
  | PDict kvs => Ok (default dflt (dict_lookup kvs key))
  | _ => Raise (AttributeError (py "object has no attribute 'get'"))
  end.

(** [v[key]] for a string key: a dict looks it up, any other value of this
    universe refuses the subscript. *)
Definition py_getitem (v : pyval) (key : list N) : PyResult pyval :=
  match v with
  | PDict kvs =>
      match dict_lookup kvs key with
      | Some x => Ok x
      | None => Raise (KeyError key)
      end
  | _ => Raise (TypeError (py "object is not subscriptable"))
  end.

(** Whether the value can be a member of a [set]. *)
Definition hashable (v : pyval) : bool :=
  match v with
  | PList _ | PDict _ => false
  | _ => true
  end.

(** ** json.dumps with its default arguments

    [ensure_ascii=True], separators [", "] and [": "], no indentation.  The
    text of a float ([float.__repr__], or [NaN], [Infinity], [-Infinity]) is
    left to [float_repr]. *)
Module json.

Definition hex_digit (n : N) : N :=
  (if n <? 10 then 48 + n else 87 + n)%N.

(** ['\\u{0:04x}'.format(n)] *)
Definition u_escape (n : N) : list N :=
  [92; 117; hex_digit (n / 4096 mod 16); hex_digit (n / 256 mod 16);
   hex_digit (n / 16 mod 16); hex_digit (n mod 16)]%N.

(** The replacement of one character by [py_encode_basestring_ascii]: the
    characters from the space to the tilde stand for themselves, except the
    backslash and the double quote. *)
Definition escape_char (c : N) : list N :=
  (if c =? 92 then [92; 92]
   else if c =? 34 then [92; 34]
   else if (32 <=? c) && (c <=? 126) then [c]
   else if c =? 8 then [92; 98]
   else if c =? 12 then [92; 102]
   else if c =? 10 then [92; 110]
   else if c =? 13 then [92; 114]
   else if c =? 9 then [92; 116]
   else if c <? 65536 then u_escape c
   else
     let n := c - 65536 in
     u_escape (N.lor 55296 (N.land (N.shiftr n 10) 1023))
       ++ u_escape (N.lor 56320 (N.land n 1023)))%N.

Definition encode_str (s : list N) : list N :=
  [34%N] ++ (s ≫= escape_char) ++ [34%N].

(** [int.__repr__] *)
Definition int_repr (n : Z) : list N := int_str n.

(** [sep.join(parts)] *)
Fixpoint str_join (sep : list N) (parts : list (list N)) : list N :=
  match parts with
  | [] => []
  | [p] => p
  | p :: ps => p ++ sep ++ str_join sep ps
  end.

Section Dumps.
Variable float_repr : float → list N.

Fixpoint dumps (v : pyval) : list N :=
  match v with
  | PNone => py "null"
  | PBool true => py "true"
  | PBool false => py "false"
  | PInt n => int_repr n
  | PFloat f => float_repr f
  | PStr s => encode_str s
  | PList xs =>
      py "[" ++ str_join (py ", ") (List.map dumps xs) ++ py "]"
  | PDict kvs =>
      py "{"
      ++ str_join (py ", ")
           (List.map (λ kv, encode_str kv.1 ++ py ": " ++ dumps kv.2) kvs)
      ++ py "}"
  end.

End Dumps.

End json.

(** ** repr and str

    [repr] of a string keeps its printable characters and escapes the
    others.  Which characters beyond ASCII are printable is a table of the
    Unicode database of the interpreter, the parameter [isprintable]. *)
Class UnicodeData : Type := { isprintable : N → bool }.

(** ['\\x{0:02x}'.format(n)] and ['\\U{0:08x}'.format(n)] *)
Definition x_escape (n : N) : list N :=
  [92; 120; json.hex_digit (n / 16 mod 16); json.hex_digit (n mod 16)]%N.

Definition U_escape (n : N) : list N :=
  [92; 85; json.hex_digit (n / 268435456 mod 16);
   json.hex_digit (n / 16777216 mod 16); json.hex_digit (n / 1048576 mod 16);
   json.hex_digit (n / 65536 mod 16); json.hex_digit (n / 4096 mod 16);
   json.hex_digit (n / 256 mod 16); json.hex_digit (n / 16 mod 16);
   json.hex_digit (n mod 16)]%N.

(** The text of one character inside [repr(s)], [quote] being the quote
    chosen for the string. *)
Definition repr_char {U : UnicodeData} (quote c : N) : list N :=
  (if (c =? quote) || (c =? 92) then [92; c]
   else if c =? 9 then [92; 116]
   else if c =? 10 then [92; 110]
   else if c =? 13 then [92; 114]
   else if (c <? 32) || (c =? 127) then x_escape c
   else if c <? 127 then [c]
   else if isprintable c then [c]
   else if c <? 256 then x_escape c
   else if c <? 65536 then json.u_escape c
   else U_escape c)%N.

(** [repr(s)] for a string: between single quotes, unless the string has a
    single quote and no double quote. *)
Definition py_repr {U : UnicodeData} (s : list N) : list N :=
  let quote : N :=
    if bool_decide (39%N ∈ s) && negb (bool_decide (34%N ∈ s)) then 34%N
    else 39%N in
  [quote] ++ (s ≫= repr_char quote) ++ [quote].

(** [str(e)].  For a [KeyError] this is the [repr] of the key.  An
    [HTTPException] prints its status code and its detail. *)
Definition exc_str {U : UnicodeData} (e : PyExc) : list N :=
  match e with
  | KeyError k => py_repr k
  | ValueError m | TypeError m | AttributeError m | IndexError m
  | Exception m => m
  | AssertionError => []
  | HTTPException c d => int_str c ++ py ": " ++ d
  end.

(** ** main.py: execute_rag_task *)

(** [s.replace(old, new)] for a pattern [old] of one character. *)
Definition str_replace (old : N) (new : list N) (s : list N) : list N :=
  s ≫= (λ c, if (c =? old)%N then new else [c]).

(** [c.isspace()], the separators of [str.split()] without argument. *)
Definition isspace (c : N) : bool :=
  ((9 <=? c) && (c <=? 13) || (28 <=? c) && (c <=? 32)
   || (c =? 133) || (c =? 160) || (c =? 5760)
   || (8192 <=? c) && (c <=? 8202)
   || (c =? 8232) || (c =? 8233) || (c =? 8239) || (c =? 8287)
   || (c =? 12288))%N.

(** [s.split()]: the maximal runs of characters that are not white space.
    [cur] is the run being read. *)
Fixpoint split_from (cur : list N) (s : list N) : list (list N) :=
  match s with
  | [] => match cur with [] => [] | _ => [cur] end
  | c :: s' =>
      if isspace c
      then match cur with [] => split_from [] s' | _ => cur :: split_from [] s' end
      else split_from (cur ++ [c]) s'
  end.

Definition str_split (s : list N) : list (list N) := split_from [] s.

(** The rupee sign and the bullet. *)
Definition RUPEE : N := 8377.
Definition BULLET : N := 8226.

(** Lines 129-134: the replacements of the fallback. *)
Definition substitute (text : list N) : list N :=
  let ans := text in
  let ans := str_replace 13 (py " ") (str_replace 10 (py " ") ans) in
  let ans := foldl (λ a ch, str_replace ch [] a) ans [42%N; BULLET] in
  let ans := str_replace 45 (py " ") ans in
  str_replace RUPEE (py " ruppees") ans.

(** Lines 128-136: the fallback sanitization of the generated text. *)
Definition sanitize (text : list N) : list N :=
  let ans := substitute text in
  json.str_join (py " ") (str_split ans).

Section RagTask.

Context {F : Float32}.

(** [json.loads], and the text [json.dumps] gives a float. *)
Variable json_loads : list N → PyResult pyval.
Variable float_repr : float → list N.

(** Lines 119-138: from the text of the model's response to the result. *)
Definition answer_of_response (text : list N) : list N :=
  let direct :=
    match json_loads text with
    | Ok parsed =>
        if is_dict_with (py "answer") parsed
        then Some (json.dumps float_repr parsed)
        else None
    | Raise _ => None
    end in
  match direct with
  | Some r => r
  | None => json.dumps float_repr (PDict [(py "answer", PStr (sanitize text))])
  end.

(** The embedding service and the generation service.  The prompt is a fixed
    text around the context and the question, so the response is taken as a
    function of these two. *)
Variable get_embedding : list N → PyResult (list Z).
Variable generate_content : list N → list N → PyResult (list N).

Definition execute_rag_task (vector_store : VectorStore.t)
    (input_data : gmap (list N) (list N)) : PyResult (list N) :=
  match input_data !! py "question" with
  | None | Some [] => Raise (ValueError (py "Question missing from input_data"))
  | Some query =>
      query_emb ← get_embedding query;
      context_chunks ← VectorStore.search vector_store query_emb 5;
      let context := json.str_join [10; 10]%N context_chunks in
      text ← generate_content context query;
      Ok (answer_of_response text)
  end.

End RagTask.

(** ** main.py: upload_pdf *)

(** [range(0, stop, step)] for a positive step. *)
Definition py_range (stop step : nat) : list nat :=
  (λ i, i * step)%nat <$> seq 0 ((stop + step - 1) / step).

(** [text[i:j]] for [0 <= i <= j]. *)
Definition str_slice (text : list N) (i j : nat) : list N :=
  take (j - i) (drop i text).

(** Line 159: [[text[i:i+1000] for i in range(0, len(text), 1000)]]. *)
Definition chunk_text (text : list N) : list (list N) :=
  (λ i, str_slice text i (i + 1000)) <$> py_range (length text) 1000.

(** Lines 162-164: the loop that embeds and stores the chunks.  The first
    exception ends it; the store keeps what was added before. *)
Fixpoint index_chunks (get_embedding : list N → PyResult (list Z))
    (chunks : list (list N)) (vector_store : VectorStore.t)
  : PyResult unit * VectorStore.t :=
  match chunks with
  | [] => (Ok (), vector_store)
  | chunk :: rest =>
      match get_embedding chunk with
      | Raise e => (Raise e, vector_store)
      | Ok emb =>
          match VectorStore.add vector_store emb chunk with
          | Raise e => (Raise e, vector_store)
          | Ok vector_store' => index_chunks get_embedding rest vector_store'
          end
      end
  end.

Record UploadResponse : Type := mkUploadResponse {
  upload_message : list N;
  chunks_processed : nat
}.

(** [upload_pdf]: [saved] is the outcome of writing the upload to the
    uploads folder and [load_pdf] the outcome of the text extraction (the
    module rag/pdf_loader.py is not among the sources). *)
Definition upload_pdf {U : UnicodeData} (saved : PyResult unit)
    (load_pdf : PyResult (list N))
    (get_embedding : list N → PyResult (list Z)) (vector_store : VectorStore.t)
  : PyResult UploadResponse * VectorStore.t :=
  let body :=
    match saved with
    | Raise e => (Raise e, vector_store)
    | Ok _ =>
        match load_pdf with
        | Raise e => (Raise e, vector_store)
        | Ok text =>
            let chunks := chunk_text text in
            match index_chunks get_embedding chunks vector_store with
            | (Ok _, vector_store') =>
                (Ok (mkUploadResponse
                       (py "PDF uploaded and indexed successfully")
                       (length chunks)),
                 vector_store')
            | (Raise e, vector_store') => (Raise e, vector_store')
            end
        end
    end in
  match body with
  | (Ok r, vector_store') => (Ok r, vector_store')
  | (Raise e, vector_store') =>
      (Raise (HTTPException 500 (py "Error processing PDF: " ++ exc_str e)),
       vector_store')
  end.

(** ** main.py: the job store and the payment instances *)

Inductive JobStatus : Type :=
  | awaiting_payment
  | running
  | completed
  | failed.

Global Instance JobStatus_eq_dec : EqDecision JobStatus.
Proof. solve_decision. Defined.

(** A job record, the dict stored under [jobs[job_id]].  [result = None] is
    the value [None] of the key ["result"]; [error = None] says that the key
    ["error"] is absent. *)
Record Job : Type := mkJob {
  status : JobStatus;
  payment_status : pyval;
  blockchain_identifier : pyval;
  input_data : gmap (list N) (list N);
  result : option (list N);
  identifier_from_purchaser : list N;
  error : option (list N)
}.

Definition set_status (v : JobStatus) (j : Job) : Job :=
  mkJob v (payment_status j) (blockchain_identifier j) (input_data j)
        (result j) (identifier_from_purchaser j) (error j).
Definition set_payment_status (v : pyval) (j : Job) : Job :=
  mkJob (status j) v (blockchain_identifier j) (input_data j)
        (result j) (identifier_from_purchaser j) (error j).
Definition set_result (v : list N) (j : Job) : Job :=
  mkJob (status j) (payment_status j) (blockchain_identifier j) (input_data j)
        (Some v) (identifier_from_purchaser j) (error j).
Definition set_error (v : list N) (j : Job) : Job :=
  mkJob (status j) (payment_status j) (blockchain_identifier j) (input_data j)
        (result j) (identifier_from_purchaser j) (Some v).

(** A [masumi.payment.Payment] object: the arguments of its constructor, the
    hash it derives from the input, and the ids added to it. *)
Record Payment : Type := mkPayment {
  pay_agent_identifier : option (list N);
  pay_identifier_from_purchaser : list N;
  pay_input_data : gmap (list N) (list N);
  pay_network : option (list N);
  input_hash : list N;
  payment_ids : list pyval
}.

(** What the process does to the world outside its two dicts, and the
    assignments to a job's ["status"], in the order they happen.  The event
    of a call says that the call is made; the call may raise. *)
Inductive Event : Type :=
  | EvCreatePaymentRequest (job_id : list N)
  | EvStartMonitoring (job_id : list N)
  | EvStopMonitoring (job_id : list N)
  | EvCheckStatus (job_id : list N)
  | EvRagTask (job_id : list N)
  | EvCompletePayment (job_id payment_id result : list N)
  | EvStatus (job_id : list N) (v : JobStatus).

(** The module-level dicts [jobs] and [payment_instances], and the events so
    far (the oldest first). *)
Record State : Type := mkState {
  jobs : gmap (list N) Job;
  payment_instances : gmap (list N) Payment;
  trace : list Event
}.

Definition initial : State := mkState ∅ ∅ [].

(** *** Handlers: state passing with exceptions *)

Record M (A : Type) : Type := mkM { runM : State → PyResult A * State }.
Arguments mkM {A} _.
Arguments runM {A} _ _.

Global Instance M_ret : MRet M := λ A a, mkM (λ s, (Ok a, s)).
Global Instance M_bind : MBind M := λ A B f m, mkM (λ s,
  match runM m s with
  | (Ok a, s') => runM (f a) s'
  | (Raise e, s') => (Raise e, s')
  end).

Definition raise {A} (e : PyExc) : M A := mkM (λ s, (Raise e, s)).

(** The outcome of a call to a collaborator. *)
Definition call {A} (r : PyResult A) : M A := mkM (λ s, (r, s)).

(** [try: body except Exception as e: handler(e)] *)
Definition try_except {A} (body : M A) (handler : PyExc → M A) : M A :=
  mkM (λ s,
    match runM body s with
    | (Ok a, s') => (Ok a, s')
    | (Raise e, s') => runM (handler e) s'
    end).

Definition emit (ev : Event) : M unit := mkM (λ s,
  (Ok (), mkState (jobs s) (payment_instances s) (trace s ++ [ev]))).

(** [jobs[job_id]] *)
Definition get_job (job_id : list N) : M Job := mkM (λ s,
  match jobs s !! job_id with
  | Some j => (Ok j, s)
  | None => (Raise (KeyError job_id), s)
  end).

(** [jobs[job_id] = job] *)
Definition store_job (job_id : list N) (job : Job) : M unit := mkM (λ s,
  (Ok (), mkState (<[job_id := job]> (jobs s)) (payment_instances s) (trace s))).

(** [jobs[job_id][key] = v], the field being written by [f]. *)
Definition update_job (job_id : list N) (f : Job → Job) : M unit :=
  j ← get_job job_id; store_job job_id (f j).

(** [jobs[job_id]["status"] = v] *)
Definition assign_status (job_id : list N) (v : JobStatus) : M unit :=
  update_job job_id (set_status v);; emit (EvStatus job_id v).

(** [payment_instances[job_id]] *)
Definition get_payment (job_id : list N) : M Payment := mkM (λ s,
  match payment_instances s !! job_id with
  | Some p => (Ok p, s)
  | None => (Raise (KeyError job_id), s)
  end).

(** [payment_instances[job_id] = payment] *)
Definition store_payment (job_id : list N) (p : Payment) : M unit := mkM (λ s,
  (Ok (), mkState (jobs s) (<[job_id := p]> (payment_instances s)) (trace s))).

(** The end of both branches of [handle_payment_status]:
    [if job_id in payment_instances: stop_status_monitoring(); del ...].
    Stopping a monitor is safe and idempotent (§4.3 of the specification):
    the call does not raise. *)
Definition stop_and_forget (job_id : list N) : M unit := mkM (λ s,
  match payment_instances s !! job_id with
  | Some _ =>
      (Ok (), mkState (jobs s) (delete job_id (payment_instances s))
                      (trace s ++ [EvStopMonitoring job_id]))
  | None => (Ok (), s)
  end).

(** *** /start_job *)

Record StartJobRequest : Type := mkStartJobRequest {
  req_identifier_from_purchaser : list N;
  req_input_data : gmap (list N) (list N)
}.

(** The environment variables read by [start_job]. *)
Record Env : Type := mkEnv {
  AGENT_IDENTIFIER : option (list N);
  NETWORK : option (list N);
  SELLER_VKEY : option (list N);
  PAYMENT_AMOUNT : option (list N);
  PAYMENT_UNIT : option (list N)
}.

(** What one call of [start_job] receives from outside: the uuid drawn, the
    outcome of the [Payment] constructor (its input hash), of
    [create_payment_request] and of [start_status_monitoring]. *)
Record StartJobIO : Type := mkStartJobIO {
  uuid4 : list N;
  new_payment : PyResult (list N);
  create_payment_request : PyResult pyval;
  start_status_monitoring : PyResult unit
}.

Record StartJobResponse : Type := mkStartJobResponse {
  resp_status : list N;
  resp_job_id : list N;
  resp_blockchainIdentifier : pyval;
  resp_submitResultTime : pyval;
  resp_unlockTime : pyval;
  resp_externalDisputeUnlockTime : pyval;
  resp_agentIdentifier : option (list N);
  resp_sellerVKey : option (list N);
  resp_identifierFromPurchaser : list N;
  resp_amounts : list (list N * list N);
  resp_input_hash : list N;
  resp_payByTime : pyval
}.

Definition start_job (env : Env) (io : StartJobIO) (data : StartJobRequest)
  : M StartJobResponse :=
  try_except
    (let job_id := uuid4 io in
     let agent_identifier := AGENT_IDENTIFIER env in
     (if bool_decide (is_Some (req_input_data data !! py "question"))
      then mret ()
      else raise (HTTPException 400 (py "Missing required field: question")));;
     let payment_amount := default (py "10000000") (PAYMENT_AMOUNT env) in
     let payment_unit := default (py "lovelace") (PAYMENT_UNIT env) in
     let amounts := [(payment_amount, payment_unit)] in
     hash ← call (new_payment io);
     emit (EvCreatePaymentRequest job_id);;
     payment_request ← call (create_payment_request io);
     request_data ← call (py_getitem payment_request (py "data"));
     blockchain_identifier ←
       call (py_getitem request_data (py "blockchainIdentifier"));
     (if hashable blockchain_identifier then mret ()
      else raise (TypeError (py "unhashable type")));;
     let payment :=
       mkPayment agent_identifier (req_identifier_from_purchaser data)
                 (req_input_data data) (NETWORK env) hash
                 [blockchain_identifier] in
     store_job job_id
       (mkJob awaiting_payment (PStr (py "pending")) blockchain_identifier
              (req_input_data data) None
              (req_identifier_from_purchaser data) None);;
     emit (EvStatus job_id awaiting_payment);;
     store_payment job_id payment;;
     emit (EvStartMonitoring job_id);;
     call (start_status_monitoring io);;
     request_data ← call (py_getitem payment_request (py "data"));
     submitResultTime ← call (py_getitem request_data (py "submitResultTime"));
     unlockTime ← call (py_getitem request_data (py "unlockTime"));
     externalDisputeUnlockTime ←
       call (py_getitem request_data (py "externalDisputeUnlockTime"));
     payByTime ← call (py_getitem request_data (py "payByTime"));
     mret (mkStartJobResponse (py "success") job_id blockchain_identifier
             submitResultTime unlockTime externalDisputeUnlockTime
             agent_identifier (SELLER_VKEY env)
             (req_identifier_from_purchaser data) amounts hash payByTime))
    (λ e,
       if is_KeyError e
       then raise (HTTPException 400 (py
         "Bad Request: If input_data or identifier_from_purchaser is missing, invalid, or does not adhere to the schema."))
       else raise (HTTPException 400 (py
         "Input_data or identifier_from_purchaser is missing, invalid, or does not adhere to the schema."))).

(** *** handle_payment_status

    [rag_task] is the call [execute_rag_task(...)] and [complete_payment] the
    outcome of the awaited [complete_payment(payment_id, result)]. *)
Definition handle_payment_status {U : UnicodeData}
    (rag_task : gmap (list N) (list N) → PyResult (list N))
    (complete_payment : PyResult unit)
    (job_id payment_id : list N) : M unit :=
  try_except
    (assign_status job_id running;;
     job ← get_job job_id;
     emit (EvRagTask job_id);;
     result ← call (rag_task (input_data job));
     _ ← get_payment job_id;
     emit (EvCompletePayment job_id payment_id result);;
     call complete_payment;;
     assign_status job_id completed;;
     update_job job_id (set_payment_status (PStr (py "completed")));;
     update_job job_id (set_result result);;
     stop_and_forget job_id)
    (λ e,
       assign_status job_id failed;;
       update_job job_id (set_error (exc_str e));;
       stop_and_forget job_id).

(** *** /status *)

Record StatusResponse : Type := mkStatusResponse {
  st_job_id : list N;
  st_status : JobStatus;
  st_payment_status : pyval;
  st_result : option (list N)
}.

(** [status.get("data", {}).get("status")] *)
Definition reported_status (status : pyval) : PyResult pyval :=
  data ← py_get status (py "data") (PDict []);
  py_get data (py "status") PNone.

(** [check_payment_status] is the outcome of the awaited call of that name. *)
Definition get_status (check_payment_status : PyResult pyval) (job_id : list N)
  : M StatusResponse :=
  s ← mkM (λ s, (Ok s, s));
  (if bool_decide (is_Some (jobs s !! job_id)) then mret ()
   else raise (HTTPException 404 (py "Job not found")));;
  (if bool_decide (is_Some (payment_instances s !! job_id))
   then
     try_except
       (emit (EvCheckStatus job_id);;
        status ← call check_payment_status;
        v ← call (reported_status status);
        update_job job_id (set_payment_status v))
       (λ e,
          if is_ValueError e
          then update_job job_id (set_payment_status (PStr (py "unknown")))
          else update_job job_id (set_payment_status (PStr (py "error"))))
   else mret ());;
  job ← get_job job_id;
  mret (mkStatusResponse job_id (status job) (payment_status job) (result job)).

(** *** Runs of the service

    The requests and payment confirmations the process handles, one after
    the other.  An exception of a handler ends that handler; the dicts keep
    what it had written. *)
Inductive Op : Type :=
  | StartJob (env : Env) (io : StartJobIO) (data : StartJobRequest)
  | PaymentConfirmed (rag_task : gmap (list N) (list N) → PyResult (list N))
                     (complete_payment : PyResult unit)
                     (job_id payment_id : list N)
  | GetStatus (check_payment_status : PyResult pyval) (job_id : list N).

Definition step {U : UnicodeData} (s : State) (o : Op) : State :=
  match o with
  | StartJob env io data => (runM (start_job env io data) s).2
  | PaymentConfirmed rag_task complete_payment job_id payment_id =>
      (runM (handle_payment_status rag_task complete_payment job_id payment_id) s).2
  | GetStatus check job_id => (runM (get_status check job_id) s).2
  end.

Definition run {U : UnicodeData} (ops : list Op) (s : State) : State :=
  foldl step s ops.

(** The uuids drawn by the [start_job] calls of a run. *)
Definition started (ops : list Op) : list (list N) :=
  omap (λ o, match o with StartJob _ io _ => Some (uuid4 io) | _ => None end) ops.

(** *** Observations on the events of a run *)

Definition is_rag_run (job_id : list N) (ev : Event) : bool :=
  match ev with
  | EvRagTask j => bool_decide (j = job_id)
  | _ => false
  end.

Definition is_complete_call (job_id : list N) (ev : Event) : bool :=
  match ev with
  | EvCompletePayment j _ _ => bool_decide (j = job_id)
  | _ => false
  end.

(** How often the RAG task was run for a job. *)
Definition rag_runs (job_id : list N) (tr : list Event) : nat :=
  length (List.filter (is_rag_run job_id) tr).

(** How often [complete_payment] was invoked for a job. *)
Definition complete_calls (job_id : list N) (tr : list Event) : nat :=
  length (List.filter (is_complete_call job_id) tr).

(** The values a job's status took, in order. *)
Definition status_history (job_id : list N) (tr : list Event) : list JobStatus :=
  omap (λ ev, match ev with
              | EvStatus j v => if decide (j = job_id) then Some v else None
              | _ => None
              end) tr.

(** The order of §4.4: [awaiting_payment → running → completed] and
    [awaiting_payment → running → failed]. *)
Definition legal_transition (a b : JobStatus) : bool :=
  match a, b with
  | awaiting_payment, running | running, completed | running, failed => true
  | _, _ => false
  end.

(** Every two consecutive values of a history are related by [R]. *)
Fixpoint chain (R : JobStatus → JobStatus → bool) (h : list JobStatus) : bool :=
  match h with
  | a :: (b :: _) as h' => R a b && chain R h'
  | _ => true
  end.

(** * Notions used by the statements *)

(** ** The vector store *)

(** The records an [add] of the right dimension brings, in call order. *)
Definition accepted (ops : list VectorStore.op) : list (list Z * list N) :=
  omap (λ o, match o with
             | VectorStore.Add emb chunk =>
                 if Z.of_nat (length emb) =? 768 then Some (emb, chunk) else None
             | VectorStore.Search _ _ => None
             end) ops.

(** The index has the dimension of the constructor and as many vectors as
    the store has chunks. *)
Definition well_formed (s : VectorStore.t) : Prop :=
  faiss.d (VectorStore.index s) = 768
  ∧ length (VectorStore.chunks s) = length (faiss.xb (VectorStore.index s)).

(** The vector (x, 0, ..., 0) of 768 coordinates. *)
Definition unit_vector (x : Z) : list Z := x :: replicate 767 0.

(** The store after the upload of one chunk. *)
Definition one_record : VectorStore.t :=
  VectorStore.run [VectorStore.Add (unit_vector 1) (py "Paris is the capital of France.")]
    VectorStore.init.

(** The store after the upload of two chunks, the farther from the origin
    first. *)
Definition two_records : VectorStore.t :=
  VectorStore.run [VectorStore.Add (unit_vector 2) (py "far");
                   VectorStore.Add (unit_vector 1) (py "near")]
    VectorStore.init.

(** ** The sanitized answer *)



(** A word of [str.split()]: not empty, no white space. *)
Definition word (w : list N) : Prop :=
  w ≠ [] ∧ Forall (λ c, isspace c = false) w.


(** White space collapsed, in one pass: the characters that are not white
    space are kept in order; a space is put in front of one of them when
    white space stood between it and the one kept before.  [started] says
    that a character was kept already, [pending] that white space was read
    since. *)
Fixpoint collapse_from (started pending : bool) (s : list N) : list N :=
  match s with
  | [] => []
  | c :: s' =>
      if isspace c then collapse_from started started s'
      else (if pending then [32%N; c] else [c]) ++ collapse_from true false s'
  end.



(** ** The job store *)

(** What [start_job] needs before it stores anything: the question, a
    payment object, a payment request with a hashable blockchain identifier. *)
Definition admitted (io : StartJobIO) (data : StartJobRequest)
  : PyResult (list N * pyval) :=
  _ ← (if bool_decide (is_Some (req_input_data data !! py "question"))
       then Ok () else Raise (HTTPException 400 (py "Missing required field: question")));
  hash ← new_payment io;
  payment_request ← create_payment_request io;
  request_data ← py_getitem payment_request (py "data");
  blockchain_identifier ← py_getitem request_data (py "blockchainIdentifier");
  if hashable blockchain_identifier then Ok (hash, blockchain_identifier)
  else Raise (TypeError (py "unhashable type")).

(** The job record and the events a confirmation leaves behind. *)
Definition confirmed_job {U : UnicodeData} (job : Job)
    (outcome : PyResult (list N)) : Job :=
  match outcome with
  | Ok r => mkJob completed (PStr (py "completed")) (blockchain_identifier job)
              (input_data job) (Some r) (identifier_from_purchaser job) (error job)
  | Raise e => mkJob failed (payment_status job) (blockchain_identifier job)
              (input_data job) (result job) (identifier_from_purchaser job)
              (Some (exc_str e))
  end.

(** What a confirmation comes to for a stored job: the result of the RAG
    task if the task, the lookup of the payment instance and
    [complete_payment] all went through, else the first exception. *)
Definition confirmation_outcome (rag : PyResult (list N)) (p : option Payment)
    (cp : PyResult unit) (j : list N) : PyResult (list N) :=
  r ← rag; _ ← from_option Ok (Raise (KeyError j)) p; _ ← cp; Ok r.

(** The events of a confirmation for a stored job. *)
Definition confirmation_events (rag : PyResult (list N)) (p : option Payment)
    (cp : PyResult unit) (j pid : list N) : list Event :=
  [EvStatus j running; EvRagTask j]
  ++ match rag, p with Ok r, Some _ => [EvCompletePayment j pid r] | _, _ => [] end
  ++ [EvStatus j (if is_Ok (confirmation_outcome rag p cp j) then completed else failed)]
  ++ match p with Some _ => [EvStopMonitoring j] | None => [] end.

(** The value [get_status] writes to ["payment_status"] when the job has a
    payment instance. *)
Definition refreshed (check : PyResult pyval) : pyval :=
  match check ≫= reported_status with
  | Ok v => v
  | Raise e => PStr (if is_ValueError e then py "unknown" else py "error")
  end.

(** The terminal states of §4.4. *)
Definition terminal (v : JobStatus) : bool :=
  match v with completed | failed => true | _ => false end.

(** The invariant of the two dicts: a payment instance belongs to a stored
    job that awaits payment; a job is never left [running]; a completed job
    has a result and no error, a failed one has an error. *)
Definition job_consistent (s : State) (j : list N) : Prop :=
  match jobs s !! j with
  | None => payment_instances s !! j = None
  | Some job =>
      match status job with
      | awaiting_payment => result job = None ∧ error job = None
      | running => False
      | completed =>
          payment_instances s !! j = None ∧ is_Some (result job) ∧ error job = None
      | failed => payment_instances s !! j = None ∧ is_Some (error job)
      end
      ∧ (completed ∉ status_history j (trace s) → result job = None)
  end.

(** The status histories the handlers produce for a job whose id is drawn
    once: [awaiting_payment]; with the first confirmation [running] and then
    [completed] or [failed]; with every later one [running] and [failed]. *)
Fixpoint later_confirmations (h : list JobStatus) : bool :=
  match h with
  | [] => true
  | running :: failed :: h' => later_confirmations h'
  | _ => false
  end.

Definition observed_history (h : list JobStatus) : bool :=
  match h with
  | [] | [awaiting_payment] => true
  | awaiting_payment :: running :: (completed | failed) :: h' =>
      later_confirmations h'
  | _ => false
  end.

(** The invariant of a job's events when its id is drawn once: the status
    history has the shape above and ends in the stored status;
    [complete_payment] was invoked at most once, and not yet while the payment
    instance is kept. *)
Definition job_history_ok (s : State) (j : list N) : Prop :=
  let h := status_history j (trace s) in
  let cc := complete_calls j (trace s) in
  match jobs s !! j with
  | None => payment_instances s !! j = None ∧ h = [] ∧ cc = 0%nat
  | Some job =>
      observed_history h = true ∧ last h = Some (status job) ∧ (cc ≤ 1)%nat
      ∧ (is_Some (payment_instances s !! j) → h = [awaiting_payment] ∧ cc = 0%nat)
  end.

(** The uuid a [start_job] draws is not the id of a stored job. *)
Definition fresh_for (o : Op) (s : State) : Prop :=
  match o with
  | StartJob _ io _ => jobs s !! uuid4 io = None
  | _ => True
  end.

(** ** A run of the service, used as example *)

(** The tables of the platform for the examples: their strings are ASCII
    and their vectors in the exact range, where no table is consulted. *)
Definition demo_float32 : Float32 := {| rounded_L2sqr := λ _ _, None |}.

Definition demo_unicode : UnicodeData := {| isprintable := λ _, false |}.

Definition demo_env : Env :=
  mkEnv (Some (py "agent-1")) (Some (py "Preprod")) None None None.

Definition demo_payment_request : pyval :=
  PDict [(py "data",
          PDict [(py "blockchainIdentifier", PStr (py "chain-id-1"));
                 (py "submitResultTime", PStr (py "1700000600"));
                 (py "unlockTime", PStr (py "1700001200"));
                 (py "externalDisputeUnlockTime", PStr (py "1700001800"));
                 (py "payByTime", PStr (py "1700000300"))])].

Definition demo_job_id : list N := py "0b8e6f0c-job-1".

Definition demo_io : StartJobIO :=
  mkStartJobIO demo_job_id (Ok (py "hash-1")) (Ok demo_payment_request) (Ok ()).

Definition demo_request : StartJobRequest :=
  mkStartJobRequest (py "purchaser-1")
    {[ py "question" := py "What is the capital of France?" ]}.

(** A RAG task that returns the answer Paris, and the confirmation of the
    payment of the job. *)
Definition demo_answer : list N :=
  json.dumps (λ _, []) (PDict [(py "answer", PStr (py "Paris"))]).

Definition demo_confirmation : Op :=
  PaymentConfirmed (λ _, Ok demo_answer) (Ok ()) demo_job_id (py "chain-id-1").

Definition demo_run : list Op :=
  [StartJob demo_env demo_io demo_request; demo_confirmation].

(** A request without the key ["question"]. *)
Definition demo_request_without_question : StartJobRequest :=
  mkStartJobRequest (py "purchaser-1") {[ py "topic" := py "France" ]}.

(** The state after [start_job]: the job awaits payment. *)
Definition demo_awaiting {U : UnicodeData} : State :=
  run [StartJob demo_env demo_io demo_request] initial.

(** A generation service that answers in prose, a parser that finds no
    JSON in it, and stand-ins for the other collaborators. *)
Definition demo_text : list N :=
  py "The capital is:" ++ [10%N] ++ py "* Paris - it costs " ++ [RUPEE] ++ py "5".

Definition demo_json_loads (text : list N) : PyResult pyval :=
  Raise (ValueError (py "Expecting value: line 1 column 1 (char 0)")).

Definition demo_float_repr (f : float) : list N := py "0.0".

Definition demo_get_embedding (text : list N) : PyResult (list Z) :=
  Ok (unit_vector 0).

Definition demo_generate_content (context query : list N) : PyResult (list N) :=
  Ok demo_text.

(** ** Notions of the further properties *)

(** The query and every stored vector are in the range where the index
    computes distances exactly. *)
Definition in_exact_range (q : list Z) (vs : list (list Z)) : Prop :=
  Forall (λ v, faiss.exact_range q v = true) vs.

(** The squared distance from the query to the stored vector [i]. *)
Definition distance (q : list Z) (vs : list (list Z)) (i : nat) : Z :=
  faiss.exact_L2sqr q (default [] (vs !! i)).

(** Record [i] ranks before record [j]: it is nearer to the query, or as
    near and inserted earlier. *)
Definition ranks_before (q : list Z) (vs : list (list Z)) (i j : nat) : Prop :=
  distance q vs i < distance q vs j
  ∨ (distance q vs i = distance q vs j ∧ (i < j)%nat).

(** Record [i] is not farther from the query than record [j]. *)
Definition not_farther (q : list Z) (vs : list (list Z)) (i j : nat) : Prop :=
  distance q vs i ≤ distance q vs j.

(** The order of the pairs (distance, id) kept by [faiss.ranked]. *)
Definition pair_before (p p' : Z * Z) : Prop :=
  p.1 < p'.1 ∨ (p.1 = p'.1 ∧ p.2 < p'.2).

(** The pairs (distance, id) of the stored vectors, by id. *)
Definition pairs (q : list Z) (vs : list (list Z)) : list (Z * Z) :=
  imap (λ i v, (faiss.exact_L2sqr q v, Z.of_nat i)) vs.

(** The ids of the ranking, as positions of the list of vectors. *)
Definition ranking {F : Float32} (q : list Z) (vs : list (list Z)) : list nat :=
  Z.to_nat <$> (faiss.ranked q vs 0 []).*2.

(** The chunks at the given positions. *)
Definition fragments_at (cs : list (list N)) (ids : list nat) : list (list N) :=
  (λ i, default [] (cs !! i)) <$> ids.

(** The chunk can be stored: it has an embedding, of 768 coordinates. *)
Definition indexable (get_embedding : list N → PyResult (list Z))
    (chunk : list N) : Prop :=
  ∃ emb, get_embedding chunk = Ok emb ∧ length emb = 768%nat.

(** A printable ASCII character, from the space to the tilde. *)
Definition printable (c : N) : Prop := (32 ≤ c ≤ 126)%N.

(** The job record [start_job] stores. *)
Definition new_job (data : StartJobRequest) (blockchain_identifier : pyval) : Job :=
  mkJob awaiting_payment (PStr (py "pending")) blockchain_identifier
        (req_input_data data) None (req_identifier_from_purchaser data) None.

(** The job an operation is about. *)
Definition target (o : Op) : list N :=
  match o with
  | StartJob _ io _ => uuid4 io
  | PaymentConfirmed _ _ job_id _ => job_id
  | GetStatus _ job_id => job_id
  end.

(** A payment instance is kept for a job exactly while it awaits payment. *)
Definition payment_iff_awaiting (s : State) (j : list N) : Prop :=
  match jobs s !! j with
  | None => payment_instances s !! j = None
  | Some job =>
      (is_Some (payment_instances s !! j) ↔ status job = awaiting_payment)
  end.

(** The two uploads behind [two_records]. *)
Definition demo_uploads : list VectorStore.op :=
  [VectorStore.Add (unit_vector 2) (py "far");
   VectorStore.Add (unit_vector 1) (py "near")].

(** A document of 1500 characters, an embedding service that accepts every
    chunk, and one that fails on chunks shorter than 1000 characters. *)
Definition demo_document : list N := replicate 1500 97%N.


(** An answer of the payment provider that reports locked funds. *)
Definition demo_funds_locked : pyval :=
  PDict [(py "status", PStr (py "success"));
         (py "data", PDict [(py "status", PStr (py "FundsLocked"));
                            (py "blockchainIdentifier", PStr (py "chain-id-1"))])].

(** The id of a job that was never started. *)
Definition demo_other_job_id : list N := py "7c1d2a90-job-2".

(** The inner dict of [demo_payment_request]. *)
Definition demo_request_data : pyval :=
  PDict [(py "blockchainIdentifier", PStr (py "chain-id-1"));
         (py "submitResultTime", PStr (py "1700000600"));
         (py "unlockTime", PStr (py "1700001200"));
         (py "externalDisputeUnlockTime", PStr (py "1700001800"));
         (py "payByTime", PStr (py "1700000300"))].

(** The same job when the monitor cannot be started. *)
Definition demo_io_without_monitor : StartJobIO :=
  mkStartJobIO demo_job_id (Ok (py "hash-1")) (Ok demo_payment_request)
    (Raise (Exception (py "event loop closed"))).

(** A request whose question is the empty string. *)
Definition demo_request_empty_question : StartJobRequest :=
  mkStartJobRequest (py "purchaser-1") {[ py "question" := [] ]}.

(** The job record of [demo_awaiting]. *)
Definition demo_job : Job := new_job demo_request (PStr (py "chain-id-1")).

Definition is_start_call (job_id : list N) (ev : Event) : bool :=
  match ev with
  | EvStartMonitoring j => bool_decide (j = job_id)
  | _ => false
  end.

Definition is_stop_call (job_id : list N) (ev : Event) : bool :=
  match ev with
  | EvStopMonitoring j => bool_decide (j = job_id)
  | _ => false
  end.

(** How often [start_status_monitoring] and [stop_status_monitoring] were
    called for a job.  A call of [start_status_monitoring] counts whether it
    returned or raised: the number says nothing on whether a monitor runs. *)
Definition start_monitoring_calls (job_id : list N) (tr : list Event) : nat :=
  length (List.filter (is_start_call job_id) tr).

Definition stop_monitoring_calls (job_id : list N) (tr : list Event) : nat :=
  length (List.filter (is_stop_call job_id) tr).

(** [start_status_monitoring] was called once for a stored job;
    [stop_status_monitoring] was not called while the job awaits payment and
    was called once when the job is finished. *)
Definition monitor_ok (s : State) (j : list N) : Prop :=
  let starts := start_monitoring_calls j (trace s) in
  let stops := stop_monitoring_calls j (trace s) in
  match jobs s !! j with
  | None => payment_instances s !! j = None ∧ starts = 0%nat ∧ stops = 0%nat
  | Some job =>
      starts = 1%nat
      ∧ ((is_Some (payment_instances s !! j) ∧ status job = awaiting_payment
          ∧ stops = 0%nat)
         ∨ (payment_instances s !! j = None ∧ terminal (status job) = true
            ∧ stops = 1%nat))
  end.

(** * Properties

    They are proved for every float32 arithmetic of the index and every
    table of printable characters. *)

#[local] Set Warnings "-clear-no-such-hyp".

Ltac run_handler :=
  repeat first
    [ progress cbn
    | rewrite lookup_insert_eq
    | rewrite insert_insert_eq
    | rewrite <- app_assoc
    | match goal with H : _ !! _ = _ |- _ => rewrite H end ].

Ltac case_exc :=
  match goal with |- context [is_KeyError ?e] => destruct (is_KeyError e); cbn end.


Section Properties.

Context {F : Float32} {U : UnicodeData}.

(** ** Properties of the vector store *)

Lemma add_Ok s emb chunk s' :
  VectorStore.add s emb chunk = Ok s' →
  Z.of_nat (length emb) = faiss.d (VectorStore.index s)
  ∧ faiss.d (VectorStore.index s') = faiss.d (VectorStore.index s)
  ∧ faiss.xb (VectorStore.index s') = faiss.xb (VectorStore.index s) ++ [emb]
  ∧ VectorStore.chunks s' = VectorStore.chunks s ++ [chunk].
Proof.
  unfold VectorStore.add, faiss.add. cbn.
  destruct (Z.eqb_spec (Z.of_nat (length emb)) (faiss.d (VectorStore.index s)));
    cbn; [|done].
  intros [= <-]. done.
Qed.

Lemma add_Raise s emb chunk e :
  VectorStore.add s emb chunk = Raise e →
  Z.of_nat (length emb) ≠ faiss.d (VectorStore.index s).
Proof.
  unfold VectorStore.add, faiss.add. cbn.
  destruct (Z.eqb_spec (Z.of_nat (length emb)) (faiss.d (VectorStore.index s)));
    cbn; done.
Qed.

Lemma run_from ops : ∀ s,
  well_formed s →
  let s' := VectorStore.run ops s in
  well_formed s'
  ∧ faiss.xb (VectorStore.index s')
    = faiss.xb (VectorStore.index s) ++ (accepted ops).*1
  ∧ VectorStore.chunks s' = VectorStore.chunks s ++ (accepted ops).*2.
Proof.
  induction ops as [|o ops IH]; intros s Hwf.
  { cbn. by rewrite !app_nil_r. }
  change (VectorStore.run (o :: ops) s)
    with (VectorStore.run ops (VectorStore.step s o)).
  cbn zeta. destruct Hwf as [Hd Hlen].
  destruct o as [emb chunk|q k]; [|by apply IH].
  unfold VectorStore.step, accepted. cbn [omap list_omap].
  destruct (VectorStore.add s emb chunk) as [s1|e] eqn:Hadd.
  - apply add_Ok in Hadd as (Hdim & Hd1 & Hxb & Hch).
    rewrite Hd in Hdim. rewrite Hdim. cbn [Z.eqb Pos.eqb fmap list_fmap].
    destruct (IH s1) as (Hwf' & Hxb' & Hch').
    { split; [congruence|]. rewrite Hxb, Hch, !length_app. cbn. lia. }
    cbn zeta in *. split_and!; [done| |].
    + rewrite Hxb', Hxb, <- app_assoc. done.
    + rewrite Hch', Hch, <- app_assoc. done.
  - apply add_Raise in Hadd. rewrite Hd in Hadd.
    destruct (Z.eqb_spec (Z.of_nat (length emb)) 768); [done|].
    by apply IH.
Qed.

Lemma well_formed_init : well_formed VectorStore.init.
Proof. done. Qed.

(** C10: after any sequence of [add] and [search] calls the index holds as
    many vectors as there are chunks, the i-th vector and the i-th chunk
    being those of the i-th accepted [add].  An [add] that returns has
    appended its vector to the index and its chunk to the chunks, one each; an
    [add] that raises (the dimension is not 768) has changed nothing.  Any
    further call keeps both lists as prefixes, of equal lengths again. *)
Theorem chunks_match_vectors ops :
  let s := VectorStore.run ops VectorStore.init in
  faiss.ntotal (VectorStore.index s) = Z.of_nat (length (VectorStore.chunks s))
  ∧ faiss.xb (VectorStore.index s) = (accepted ops).*1
  ∧ VectorStore.chunks s = (accepted ops).*2
  ∧ (∀ emb chunk,
       match VectorStore.add s emb chunk with
       | Ok s' =>
           faiss.xb (VectorStore.index s')
           = faiss.xb (VectorStore.index s) ++ [emb]
           ∧ VectorStore.chunks s' = VectorStore.chunks s ++ [chunk]
       | Raise _ => length emb ≠ 768%nat
       end)
  ∧ ∀ o,
      let s' := VectorStore.step s o in
      faiss.xb (VectorStore.index s) `prefix_of` faiss.xb (VectorStore.index s')
      ∧ VectorStore.chunks s `prefix_of` VectorStore.chunks s'
      ∧ length (VectorStore.chunks s') = length (faiss.xb (VectorStore.index s')).
Proof.
  intros s.
  destruct (run_from ops VectorStore.init well_formed_init) as (Hwf & Hxb & Hch).
  fold s in Hwf, Hxb, Hch. cbn in Hxb, Hch.
  split_and!; [|done|done| |].
  - unfold faiss.ntotal. destruct Hwf as [_ ->]. done.
  - intros emb chunk. destruct Hwf as [Hd _].
    destruct (VectorStore.add s emb chunk) as [s'|e] eqn:Hadd.
    + by apply add_Ok in Hadd as (_ & _ & ? & ?).
    + apply add_Raise in Hadd. lia.
  - intros o s'.
    destruct (run_from [o] s Hwf) as ((_ & Hlen') & Hxb' & Hch').
    change (VectorStore.run [o] s) with s' in *.
    rewrite Hxb', Hch'. split_and!.
    + by apply prefix_app_r.
    + by apply prefix_app_r.
    + by rewrite <- Hxb', <- Hch'.
Qed.

(** On the empty index a search returns the empty list, whatever the
    query and [k]. *)
Lemma search_empty q k : VectorStore.search VectorStore.init q k = Ok [].
Proof. reflexivity. Qed.

Lemma elem_of_insert_by_dist p p' l :
  p' ∈ faiss.insert_by_dist p l ↔ p' = p ∨ p' ∈ l.
Proof.
  induction l as [|q l IH]; cbn; [set_solver|].
  destruct (q.1 <=? p.1); set_solver.
Qed.

Lemma length_insert_by_dist p l :
  length (faiss.insert_by_dist p l) = S (length l).
Proof.
  induction l as [|q l IH]; cbn; [done|].
  destruct (q.1 <=? p.1); cbn; by rewrite ?IH.
Qed.

Lemma ranked_ids q vs : ∀ id acc p,
  p ∈ faiss.ranked q vs id acc →
  p ∈ acc ∨ id ≤ p.2 < id + Z.of_nat (length vs).
Proof.
  induction vs as [|v vs IH]; intros id acc p; cbn [faiss.ranked].
  { by left. }
  intros [Hacc|Hbound]%IH.
  - destruct (faiss.fvec_L2sqr q v) as [dist|]; [|by left].
    apply elem_of_insert_by_dist in Hacc as [->|Hacc]; [|by left].
    right. cbn. lia.
  - right. cbn [length]. lia.
Qed.

(** In the exact range the index computes the exact distance. *)
Lemma fvec_L2sqr_exact q v :
  faiss.exact_range q v = true →
  faiss.fvec_L2sqr q v = Some (faiss.exact_L2sqr q v).
Proof. unfold faiss.fvec_L2sqr. by intros ->. Qed.

(** The labels of a search: exactly [k], each a valid id or [-1]. *)
Lemma faiss_search_labels idx q k :
  Z.of_nat (length q) = faiss.d idx → 0 < k →
  ∃ labels,
    faiss.search idx q k = Ok labels
    ∧ length labels = Z.to_nat k
    ∧ ∀ l, l ∈ labels → -1 ≤ l < faiss.ntotal idx.
Proof.
  intros Hd Hk. unfold faiss.search.
  rewrite (proj2 (Z.eqb_eq _ _) Hd), (proj2 (Z.ltb_lt _ _) Hk). cbn [negb].
  eexists. split; [reflexivity|]. split.
  - rewrite length_app, length_replicate, length_take. lia.
  - intros l [Hl|Hl]%elem_of_app.
    + apply elem_of_take in Hl as (i & Hl & _).
      apply list_elem_of_lookup_2 in Hl.
      apply list_elem_of_fmap in Hl as (p & -> & Hp).
      apply ranked_ids in Hp as [Hp|Hp]; [set_solver|].
      unfold faiss.ntotal. lia.
    + apply elem_of_replicate in Hl as [-> _]. unfold faiss.ntotal. lia.
Qed.

Lemma list_getitem_Ok {A} (xs : list A) i :
  -1 ≤ i < Z.of_nat (length xs) → xs ≠ [] →
  ∃ x, list_getitem xs i = Ok x ∧ x ∈ xs.
Proof.
  intros Hi Hne. unfold list_getitem.
  assert (0 < length xs)%nat by (destruct xs; [done|cbn; lia]).
  set (j := if i <? 0 then i + Z.of_nat (length xs) else i).
  assert (0 ≤ j < Z.of_nat (length xs)) as Hj.
  { unfold j. destruct (Z.ltb_spec i 0); lia. }
  rewrite (proj2 (Z.ltb_ge _ _)), (proj2 (Z.leb_gt _ _)) by lia. cbn.
  destruct (lookup_lt_is_Some_2 xs (Z.to_nat j)) as [x Hx]; [lia|].
  rewrite Hx. exists x. split; [done|]. by eapply list_elem_of_lookup_2.
Qed.

Lemma list_comp_Ok {A B} (f : A → PyResult B) (P : B → Prop) xs :
  (∀ x, x ∈ xs → ∃ y, f x = Ok y ∧ P y) →
  ∃ ys, list_comp f xs = Ok ys ∧ length ys = length xs ∧ ∀ y, y ∈ ys → P y.
Proof.
  induction xs as [|x xs IH]; intros H; cbn.
  { exists []. set_solver. }
  destruct (H x) as (y & -> & Hy); [set_solver|].
  destruct IH as (ys & -> & Hlen & Hys); [set_solver|]. cbn.
  exists (y :: ys). split; [done|]. split; [cbn; lia|]. set_solver.
Qed.

Lemma filter_all {A} (P : A → Prop) `{∀ x, Decision (P x)} (xs : list A) :
  (∀ x, x ∈ xs → P x) → filter P xs = xs.
Proof.
  induction xs as [|x xs IH]; intros Hall; [done|].
  rewrite filter_cons_True by set_solver. f_equal. apply IH. set_solver.
Qed.

Lemma well_formed_run ops : well_formed (VectorStore.run ops VectorStore.init).
Proof. by destruct (run_from ops VectorStore.init well_formed_init) as [? _]. Qed.

(** On a store with records a search with a query of the right dimension
    and a positive [k] returns [k] stored fragments. *)
Lemma search_answers s q k :
  well_formed s → VectorStore.chunks s ≠ [] → length q = 768%nat → 0 < k →
  ∃ rs, VectorStore.search s q k = Ok rs
        ∧ length rs = Z.to_nat k
        ∧ ∀ r, r ∈ rs → r ∈ VectorStore.chunks s.
Proof.
  intros [Hd Hlen] Hne Hq Hk.
  unfold VectorStore.search, faiss.ntotal.
  destruct (Z.eqb_spec (Z.of_nat (length (faiss.xb (VectorStore.index s)))) 0) as [H0|_].
  { destruct (VectorStore.chunks s); [done|cbn in Hlen; lia]. }
  destruct (faiss_search_labels (VectorStore.index s) q k) as (labels & -> & Hl & Hb);
    [lia|done|].
  cbn. unfold faiss.ntotal in Hb. rewrite filter_all by (intros l ?%Hb; lia).
  destruct (list_comp_Ok (list_getitem (VectorStore.chunks s))
              (λ r, r ∈ VectorStore.chunks s) labels) as (rs & -> & Hlen' & Hrs).
  { intros l ?%Hb. apply list_getitem_Ok; [lia|done]. }
  exists rs. split; [done|]. split; [lia|done].
Qed.

(** X1: on a store that holds a record, a search with a query of the right
    dimension returns exactly [k] fragments, all of them stored ones. *)
Lemma search_returns_k ops q k :
  let s := VectorStore.run ops VectorStore.init in
  VectorStore.chunks s ≠ [] → length q = 768%nat → 0 < k →
  ∃ rs, VectorStore.search s q k = Ok rs
        ∧ length rs = Z.to_nat k
        ∧ ∀ r, r ∈ rs → r ∈ VectorStore.chunks s.
Proof. intros s. apply search_answers, well_formed_run. Qed.

(** C4, at the failing input: one stored record and [k = 5], the call of
    [execute_rag_task].  The search returns the one stored fragment five
    times, not once. *)
Theorem search_repeats_last_chunk :
  VectorStore.chunks one_record = [py "Paris is the capital of France."]
  ∧ VectorStore.search one_record (unit_vector 0) 5
    = Ok (replicate 5 (py "Paris is the capital of France.")).
Proof. vm_compute. done. Qed.

(** C5, at the failing input: two stored records, the farther one
    inserted first, and [k = 3].  The fragments come back as near, far,
    near: the distances 1, 4, 1 are not in non-decreasing order. *)
Theorem search_result_not_sorted :
  VectorStore.search two_records (unit_vector 0) 3
  = Ok [py "near"; py "far"; py "near"]
  ∧ faiss.fvec_L2sqr (unit_vector 0) (unit_vector 1) = Some 1
  ∧ faiss.fvec_L2sqr (unit_vector 0) (unit_vector 2) = Some 4.
Proof. vm_compute. done. Qed.

(** ** Properties of the RAG task *)

(** Induction on Python values, through the lists of a list and of a dict. *)
Lemma pyval_induction (P : pyval → Prop) :
  P PNone → (∀ b, P (PBool b)) → (∀ n, P (PInt n)) → (∀ f, P (PFloat f)) →
  (∀ s, P (PStr s)) →
  (∀ xs, Forall P xs → P (PList xs)) →
  (∀ kvs, Forall (λ kv, P kv.2) kvs → P (PDict kvs)) →
  ∀ v, P v.
Proof.
  intros HN HB HI HF HS HL HD.
  fix IH 1. intros [|b|n|f|s|xs|kvs].
  - exact HN.
  - apply HB.
  - apply HI.
  - apply HF.
  - apply HS.
  - apply HL. induction xs as [|x xs IHxs]; constructor; [apply IH|exact IHxs].
  - apply HD. induction kvs as [|[k x] kvs IHkvs]; constructor;
      [apply IH|exact IHkvs].
Qed.









Lemma split_from_words s : ∀ cur,
  Forall (λ c, isspace c = false) cur → Forall word (split_from cur s).
Proof.
  induction s as [|c s IH]; intros cur Hcur; cbn.
  { destruct cur; [constructor|]. constructor; [by split|constructor]. }
  destruct (isspace c) eqn:Hc.
  - destruct cur; [by apply IH|].
    constructor; [by split|]. by apply IH.
  - apply IH. apply Forall_app. split; [done|]. by constructor.
Qed.

Lemma split_from_concat s : ∀ cur,
  concat (split_from cur s) = cur ++ filter (λ c, isspace c = false) s.
Proof.
  induction s as [|c s IH]; intros cur; cbn [split_from].
  { destruct cur; cbn; by rewrite ?app_nil_r. }
  destruct (isspace c) eqn:Hc.
  - rewrite filter_cons_False by congruence.
    destruct cur; cbn [concat]; by rewrite IH.
  - rewrite filter_cons_True by done. rewrite IH, <- app_assoc. done.
Qed.





Lemma elem_of_join c ws :
  c ∈ json.str_join (py " ") ws → c = 32%N ∨ ∃ w, w ∈ ws ∧ c ∈ w.
Proof.
  induction ws as [|w [|w' ws] IH]; cbn [json.str_join].
  - by intros ?%elem_of_nil.
  - intros H. right. exists w. split; [by left|done].
  - intros [H|[H|H]%elem_of_app]%elem_of_app.
    + right. exists w. split; [by left|done].
    + left. by apply list_elem_of_singleton in H.
    + destruct (IH H) as [?|(w0 & Hw0 & Hc)]; [by left|].
      right. exists w0. split; [by right|done].
Qed.

Lemma str_replace_old old new s : old ∉ new → old ∉ str_replace old new s.
Proof.
  intros Hnew (c & Hc & _)%list_elem_of_bind.
  destruct (N.eqb_spec c old); [done|].
  apply list_elem_of_singleton in Hc. congruence.
Qed.

Lemma str_replace_other c old new s :
  c ∉ new → c ∉ s → c ∉ str_replace old new s.
Proof.
  intros Hnew Hs (c' & Hc & Hc')%list_elem_of_bind.
  destruct (N.eqb_spec c' old); [done|].
  apply list_elem_of_singleton in Hc. congruence.
Qed.

Lemma substitute_removes text c :
  c ∈ [10; 13; 42; BULLET; 45; RUPEE]%N → c ∉ substitute text.
Proof.
  intros Hc. unfold substitute. cbn [foldl].
  repeat (apply elem_of_cons in Hc as [->|Hc]);
    [..|by apply elem_of_nil in Hc];
    repeat first
      [ apply str_replace_old; vm_compute; set_solver
      | apply str_replace_other; [vm_compute; set_solver|] ].
Qed.

Lemma elem_of_concat_word (c : N) w ws : w ∈ ws → c ∈ w → c ∈ concat ws.
Proof.
  induction 1 as [w ws|w w' ws _ IH]; intros Hc; cbn; apply elem_of_app; auto.
Qed.

Lemma sanitize_chars text c :
  c ∈ sanitize text →
  c = 32%N ∨ (isspace c = false ∧ c ∈ substitute text).
Proof.
  unfold sanitize. cbn zeta. intros [->|(w & Hw & Hc)]%elem_of_join; [by left|].
  right. split.
  - pose proof (split_from_words (substitute text) [] (Forall_nil_2 _)) as Hws.
    rewrite Forall_forall in Hws. destruct (Hws w Hw) as [_ Hns].
    rewrite Forall_forall in Hns. by apply Hns.
  - assert (c ∈ concat (str_split (substitute text))) as Hin.
    { by eapply elem_of_concat_word. }
    unfold str_split in Hin. rewrite split_from_concat in Hin. cbn in Hin.
    by apply list_elem_of_filter in Hin as [_ ?].
Qed.



(** The fallback on a prose answer with a line break, a bullet, a hyphen
    and a rupee sign. *)
Example sanitize_demo_text :
  sanitize demo_text = py "The capital is: Paris it costs ruppees5".
Proof. vm_compute. reflexivity. Qed.

(** The serialized result keeps a line break of the answer as the two
    characters of its escape, and a rupee sign as its code point. *)
Example dumps_escapes :
  json.dumps demo_float_repr (PDict [(py "answer", PStr [80; 10; RUPEE]%N)])
  = py "{" ++ [34%N] ++ py "answer" ++ [34%N] ++ py ": "
    ++ [34%N] ++ py "P\n\u20b9" ++ [34%N] ++ py "}".
Proof. vm_compute. reflexivity. Qed.

Lemma str_replace_absent old new s : old ∉ s → str_replace old new s = s.
Proof.
  unfold str_replace. induction s as [|c s IH]; intros Hs; [done|].
  apply not_elem_of_cons in Hs as [Hne Hs]. cbn.
  destruct (N.eqb_spec c old); [congruence|]. cbn. by rewrite IH.
Qed.

Lemma substitute_only_rupee text :
  (∀ c, c ∈ [10; 13; 42; BULLET; 45]%N → c ∉ text) →
  substitute text = str_replace RUPEE (py " ruppees") text.
Proof.
  intros H. unfold substitute. cbn [foldl].
  rewrite (str_replace_absent 10) by (apply H; set_solver).
  rewrite (str_replace_absent 13) by (apply H; set_solver).
  rewrite (str_replace_absent 42) by (apply H; set_solver).
  rewrite (str_replace_absent BULLET) by (apply H; set_solver).
  rewrite (str_replace_absent 45) by (apply H; set_solver).
  done.
Qed.

Lemma sanitize_without_markers text c :
  c ∈ [10; 13; 42; BULLET; 45; RUPEE]%N → c ∉ sanitize text.
Proof.
  intros Hc [->|[_ Hin]]%sanitize_chars.
  - vm_compute in Hc. set_solver.
  - by apply (substitute_removes text c).
Qed.


Lemma execute_rag_task_Ok json_loads float_repr get_embedding generate_content
    vector_store input_data r :
  execute_rag_task json_loads float_repr get_embedding generate_content
    vector_store input_data = Ok r →
  ∃ query query_emb context_chunks text,
    input_data !! py "question" = Some query ∧ query ≠ []
    ∧ get_embedding query = Ok query_emb
    ∧ VectorStore.search vector_store query_emb 5 = Ok context_chunks
    ∧ generate_content (json.str_join [10; 10]%N context_chunks) query = Ok text
    ∧ r = answer_of_response json_loads float_repr text.
Proof.
  unfold execute_rag_task.
  destruct (input_data !! py "question") as [[|c query]|]; [done| |done].
  destruct (get_embedding (c :: query)) as [query_emb|e] eqn:Hemb; [|done]. cbn.
  destruct (VectorStore.search _ _ _) as [context_chunks|e] eqn:Hsearch; [|done].
  cbn. destruct (generate_content _ _) as [text|e] eqn:Hgen; [|done]. cbn.
  intros [= <-]. exists (c :: query), query_emb, context_chunks, text. done.
Qed.






Lemma collapse_started s :
  collapse_from true false s
  = match s with
    | c :: s' => if isspace c then collapse_from true true s'
                 else c :: collapse_from true false s'
    | [] => []
    end.
Proof. destruct s as [|c s]; [done|]. cbn. by destruct (isspace c). Qed.









(** ** Properties of the job orchestration *)

Lemma start_job_state env io data s :
  (runM (start_job env io data) s).2 =
  match admitted io data with
  | Ok (hash, bid) =>
      mkState
        (<[uuid4 io := mkJob awaiting_payment (PStr (py "pending")) bid
                         (req_input_data data) None
                         (req_identifier_from_purchaser data) None]> (jobs s))
        (<[uuid4 io := mkPayment (AGENT_IDENTIFIER env)
                         (req_identifier_from_purchaser data)
                         (req_input_data data) (NETWORK env) hash [bid]]>
           (payment_instances s))
        (trace s ++ [EvCreatePaymentRequest (uuid4 io);
                     EvStatus (uuid4 io) awaiting_payment;
                     EvStartMonitoring (uuid4 io)])
  | Raise _ =>
      mkState (jobs s) (payment_instances s)
        (trace s ++
           if bool_decide (is_Some (req_input_data data !! py "question"))
              && is_Ok (new_payment io)
           then [EvCreatePaymentRequest (uuid4 io)] else [])
  end.
Proof.
  destruct s as [js ps tr].
  unfold start_job, try_except, admitted. cbn.
  destruct (bool_decide _); cbn; [|by rewrite app_nil_r].
  destruct (new_payment io) as [hash|e]; cbn.
  { destruct (create_payment_request io) as [pr|e]; cbn; [|by case_exc].
    destruct (py_getitem pr _) as [rd|e]; cbn; [|by case_exc].
    destruct (py_getitem rd (py "blockchainIdentifier")) as [bid|e]; cbn;
      [|by case_exc].
    destruct (hashable bid); cbn; [|done].
    rewrite <- !app_assoc. cbn.
    destruct (start_status_monitoring io) as [[]|e]; cbn; [|by case_exc].
    repeat (match goal with
            | |- context [py_getitem ?a ?b] => destruct (py_getitem a b); cbn
            end; try by case_exc).
    done. }
  case_exc; by rewrite app_nil_r.
Qed.

Lemma handle_unknown_job rag cp j pid s :
  jobs s !! j = None →
  runM (handle_payment_status rag cp j pid) s = (Raise (KeyError j), s).
Proof.
  intros H. unfold handle_payment_status, try_except, assign_status, update_job.
  by run_handler.
Qed.

Lemma handle_known_job rag cp j pid s job :
  jobs s !! j = Some job →
  runM (handle_payment_status rag cp j pid) s =
  (Ok (),
   let p := payment_instances s !! j in
   mkState
     (<[j := confirmed_job job (confirmation_outcome (rag (input_data job)) p cp j)]> (jobs s))
     (delete j (payment_instances s))
     (trace s ++ confirmation_events (rag (input_data job)) p cp j pid)).
Proof.
  intros H. destruct s as [js ps tr]. cbn in H.
  unfold handle_payment_status, try_except, assign_status, update_job,
    confirmation_events, confirmation_outcome.
  run_handler.
  destruct (rag (input_data job)) as [r|e]; run_handler.
  - destruct (ps !! j) as [p|] eqn:Hp; run_handler.
    + destruct cp as [[]|e]; by run_handler.
    + by rewrite (delete_id _ _ Hp).
  - destruct (ps !! j) as [p|] eqn:Hp; run_handler; [done|].
    by rewrite (delete_id _ _ Hp).
Qed.

Lemma get_status_unknown_job check j s :
  jobs s !! j = None →
  runM (get_status check j) s = (Raise (HTTPException 404 (py "Job not found")), s).
Proof. intros H. unfold get_status. cbn. by rewrite H. Qed.

Lemma get_status_known_job check j s job :
  jobs s !! j = Some job →
  runM (get_status check j) s =
  match payment_instances s !! j with
  | None =>
      (Ok (mkStatusResponse j (status job) (payment_status job) (result job)), s)
  | Some _ =>
      (Ok (mkStatusResponse j (status job) (refreshed check) (result job)),
       mkState (<[j := set_payment_status (refreshed check) job]> (jobs s))
               (payment_instances s) (trace s ++ [EvCheckStatus j]))
  end.
Proof.
  intros H. destruct s as [js ps tr]. cbn in H.
  unfold get_status, try_except, update_job, refreshed. cbn. rewrite H. cbn.
  destruct (ps !! j) as [p|]; cbn; [|by rewrite H].
  destruct check as [st|e]; cbn.
  - destruct (reported_status st) as [v|e]; run_handler; [done|].
    destruct (is_ValueError e); by run_handler.
  - destruct (is_ValueError e); by run_handler.
Qed.

Lemma status_history_app j tr1 tr2 :
  status_history j (tr1 ++ tr2) = status_history j tr1 ++ status_history j tr2.
Proof. apply omap_app. Qed.

Lemma complete_calls_app j tr1 tr2 :
  complete_calls j (tr1 ++ tr2) = (complete_calls j tr1 + complete_calls j tr2)%nat.
Proof. unfold complete_calls. by rewrite List.filter_app, length_app. Qed.

Lemma rag_runs_app j tr1 tr2 :
  rag_runs j (tr1 ++ tr2) = (rag_runs j tr1 + rag_runs j tr2)%nat.
Proof. unfold rag_runs. by rewrite List.filter_app, length_app. Qed.

Lemma status_history_confirmation j j0 rag p cp pid :
  status_history j (confirmation_events rag p cp j0 pid) =
  if decide (j0 = j)
  then [running; if is_Ok (confirmation_outcome rag p cp j0) then completed else failed]
  else [].
Proof.
  unfold confirmation_events, status_history.
  destruct rag as [r|e], p as [p|]; cbn; destruct (decide (j0 = j)); done.
Qed.

Lemma complete_calls_confirmation j j0 rag p cp pid :
  complete_calls j (confirmation_events rag p cp j0 pid) =
  if decide (j0 = j)
  then (if is_Ok rag && bool_decide (is_Some p) then 1 else 0)%nat
  else 0%nat.
Proof.
  unfold confirmation_events, complete_calls.
  destruct rag as [r|e], p as [p|]; cbn; try by destruct (decide (j0 = j)).
  destruct (decide (j0 = j)) as [->|Hne].
  - by rewrite bool_decide_eq_true_2.
  - by rewrite bool_decide_eq_false_2.
Qed.

Lemma rag_runs_confirmation j j0 rag p cp pid :
  rag_runs j (confirmation_events rag p cp j0 pid) =
  if decide (j0 = j) then 1%nat else 0%nat.
Proof.
  unfold confirmation_events, rag_runs. cbn.
  destruct (decide (j0 = j)) as [->|Hne].
  - rewrite bool_decide_eq_true_2 by done.
    destruct rag as [r|e], p as [p|]; done.
  - rewrite bool_decide_eq_false_2 by done.
    destruct rag as [r|e], p as [p|]; done.
Qed.

Lemma confirmation_outcome_Ok rag p cp j r :
  confirmation_outcome rag p cp j = Ok r → rag = Ok r ∧ is_Some p ∧ cp = Ok ().
Proof.
  unfold confirmation_outcome.
  destruct rag as [r'|e]; cbn; [|done].
  destruct p as [p|]; cbn; [|done].
  destruct cp as [[]|e]; cbn; [|done].
  intros [= ->]. eauto.
Qed.

Lemma job_consistent_step s o :
  (∀ j, job_consistent s j) → ∀ j, job_consistent (step s o) j.
Proof.
  intros Inv j. specialize (Inv j) as Hj. unfold job_consistent in *.
  destruct o as [env io data|rag cp j0 pid|check j0]; cbn [step].
  - rewrite start_job_state.
    destruct (admitted io data) as [[hash bid]|e];
      cbn [jobs payment_instances trace]; rewrite status_history_app.
    + destruct (decide (uuid4 io = j)) as [->|Hne].
      * rewrite lookup_insert_eq. cbn. done.
      * rewrite !lookup_insert_ne by done.
        cbn. rewrite decide_False by done. cbn. by rewrite app_nil_r.
    + destruct (_ && _); cbn; by rewrite app_nil_r.
  - destruct (jobs s !! j0) as [job0|] eqn:Hj0.
    2: { by rewrite handle_unknown_job. }
    rewrite (handle_known_job _ _ _ _ _ _ Hj0). cbn [snd jobs payment_instances trace].
    rewrite status_history_app, status_history_confirmation.
    destruct (decide (j0 = j)) as [->|Hne].
    + rewrite lookup_insert_eq, lookup_delete_eq.
      rewrite Hj0 in Hj. destruct Hj as [Hst Hres].
      destruct (confirmation_outcome _ _ _ _) as [r|e] eqn:Hout; cbn.
      * apply confirmation_outcome_Ok in Hout as (_ & Hp & _).
        split.
        -- split_and!; [done|by eexists|].
           destruct (status job0); try (destruct Hst as [? _]; destruct Hp; congruence).
           ++ by destruct Hst.
           ++ done.
        -- intros Hnot. exfalso. apply Hnot.
           apply elem_of_app. right. set_solver.
      * split; [by split_and!; [done|by eexists]|].
        intros Hnot. apply Hres. intros Hin. apply Hnot.
        apply elem_of_app. by left.
    + rewrite lookup_insert_ne, lookup_delete_ne, app_nil_r by done. done.
  - destruct (jobs s !! j0) as [job0|] eqn:Hj0.
    2: { by rewrite get_status_unknown_job. }
    rewrite (get_status_known_job _ _ _ _ Hj0).
    destruct (payment_instances s !! j0) as [p|] eqn:Hp;
      cbn [snd jobs payment_instances trace]; [|done].
    rewrite status_history_app. cbn [status_history omap list_omap]. rewrite app_nil_r.
    destruct (decide (j0 = j)) as [->|Hne].
    + rewrite lookup_insert_eq. rewrite Hj0 in Hj. cbn. done.
    + rewrite lookup_insert_ne by done. done.
Qed.

Lemma later_confirmations_app h :
  later_confirmations h = true →
  later_confirmations (h ++ [running; failed]) = true.
Proof.
  induction h as [h IH] using (induction_ltof1 _ (@length _)); unfold ltof in IH.
  destruct h as [|[] [|[] h']]; cbn; try done.
  intros H. apply IH; [cbn; lia|done].
Qed.

Lemma observed_history_app h :
  h ≠ [] → observed_history h = true →
  observed_history (h ++ [running; failed]) = true.
Proof.
  intros Hne H.
  destruct h as [|[] [|[] [|[] h']]]; cbn in *; try done;
    by apply later_confirmations_app.
Qed.

Lemma complete_calls_start j j0 (b : bool) :
  complete_calls j (if b then [EvCreatePaymentRequest j0] else []) = 0%nat.
Proof. by destruct b. Qed.

Lemma status_history_start j j0 (b : bool) :
  status_history j (if b then [EvCreatePaymentRequest j0] else []) = [].
Proof. by destruct b. Qed.

Lemma job_history_ok_step s o :
  fresh_for o s →
  (∀ j, job_history_ok s j) → ∀ j, job_history_ok (step s o) j.
Proof.
  intros Hfresh Inv j. specialize (Inv j) as Hj. unfold job_history_ok in *.
  cbn zeta in *.
  destruct o as [env io data|rag cp j0 pid|check j0]; cbn [step].
  - cbn in Hfresh. rewrite start_job_state.
    destruct (admitted io data) as [[hash bid]|e];
      cbn [jobs payment_instances trace];
      rewrite status_history_app, complete_calls_app.
    + destruct (decide (uuid4 io = j)) as [Heq|Hne]; [subst j|].
      * rewrite lookup_insert_eq. rewrite Hfresh in Hj.
        destruct Hj as (_ & -> & ->). cbn.
        rewrite decide_True by done. cbn.
        split_and!; [done|done|lia|done].
      * rewrite !lookup_insert_ne by done.
        cbn. rewrite decide_False by done. cbn.
        rewrite app_nil_r, Nat.add_0_r. done.
    + rewrite complete_calls_start, status_history_start, app_nil_r, Nat.add_0_r.
      done.
  - destruct (jobs s !! j0) as [job0|] eqn:Hj0.
    2: { by rewrite handle_unknown_job. }
    rewrite (handle_known_job _ _ _ _ _ _ Hj0). cbn [snd jobs payment_instances trace].
    rewrite status_history_app, status_history_confirmation.
    rewrite complete_calls_app, complete_calls_confirmation.
    destruct (decide (j0 = j)) as [->|Hne].
    + rewrite lookup_insert_eq, lookup_delete_eq.
      rewrite Hj0 in Hj. destruct Hj as (Hobs & Hlast & Hcc & Hp).
      destruct (payment_instances s !! j) as [p|] eqn:HeqP in |- *.
      * destruct Hp as [Hh Hc]; [by rewrite HeqP|]. rewrite Hh, Hc.
        destruct (confirmation_outcome _ _ _ _) as [r|e]; cbn;
          (split_and!; [done|done| |by intros [? ?]]);
          destruct (is_Ok _ && _); lia.
      * rewrite andb_false_r, Nat.add_0_r.
        assert (confirmation_outcome (rag (input_data job0)) None cp j
                = Raise match rag (input_data job0) with
                        | Ok _ => KeyError j | Raise e => e end) as ->.
        { unfold confirmation_outcome. by destruct (rag _). }
        cbn. split_and!; [|by rewrite last_app|done|by intros [? ?]].
        apply observed_history_app; [|done].
        intros Heq. by rewrite Heq in Hlast.
    + rewrite lookup_insert_ne, lookup_delete_ne, app_nil_r, Nat.add_0_r by done.
      done.
  - destruct (jobs s !! j0) as [job0|] eqn:Hj0.
    2: { by rewrite get_status_unknown_job. }
    rewrite (get_status_known_job _ _ _ _ Hj0).
    destruct (payment_instances s !! j0) as [p|] eqn:Hp;
      cbn [snd jobs payment_instances trace]; [|done].
    rewrite status_history_app, complete_calls_app. cbn [status_history omap list_omap].
    rewrite app_nil_r. cbn. rewrite Nat.add_0_r.
    destruct (decide (j0 = j)) as [->|Hne].
    + rewrite lookup_insert_eq. rewrite Hj0 in Hj. cbn. done.
    + rewrite lookup_insert_ne by done. done.
Qed.

Lemma job_consistent_run ops : ∀ s,
  (∀ j, job_consistent s j) → ∀ j, job_consistent (run ops s) j.
Proof.
  induction ops as [|o ops IH]; intros s Inv; [done|].
  cbn. apply IH. by apply job_consistent_step.
Qed.

Lemma job_consistent_initial j : job_consistent initial j.
Proof. done. Qed.

Lemma job_history_ok_initial j : job_history_ok initial j.
Proof. done. Qed.

Lemma step_jobs_None s o j :
  jobs s !! j = None → j ∉ started [o] → jobs (step s o) !! j = None.
Proof.
  intros Hj Hnot.
  destruct o as [env io data|rag cp j0 pid|check j0]; cbn [step].
  - rewrite start_job_state.
    destruct (admitted io data) as [[hash bid]|e]; cbn; [|done].
    rewrite lookup_insert_ne; [done|]. cbn in Hnot. set_solver.
  - destruct (jobs s !! j0) as [job0|] eqn:Hj0.
    2: { by rewrite handle_unknown_job. }
    rewrite (handle_known_job _ _ _ _ _ _ Hj0). cbn.
    rewrite lookup_insert_ne; [done|]. congruence.
  - destruct (jobs s !! j0) as [job0|] eqn:Hj0.
    2: { by rewrite get_status_unknown_job. }
    rewrite (get_status_known_job _ _ _ _ Hj0).
    destruct (payment_instances s !! j0); cbn; [|done].
    rewrite lookup_insert_ne; [done|]. congruence.
Qed.

Lemma job_history_ok_run ops : ∀ s,
  NoDup (started ops) →
  (∀ j, j ∈ started ops → jobs s !! j = None) →
  (∀ j, job_history_ok s j) → ∀ j, job_history_ok (run ops s) j.
Proof.
  induction ops as [|o ops IH]; intros s Hnd Hfresh Inv; [done|].
  cbn. apply IH.
  - destruct o; cbn in Hnd; [by apply NoDup_cons in Hnd as [_ ?]|done..].
  - intros j Hj. apply step_jobs_None.
    + apply Hfresh. destruct o; cbn; [by apply elem_of_cons; right|done..].
    + destruct o; cbn; [|set_solver..].
      cbn in Hnd. apply NoDup_cons in Hnd as [Hnot _]. set_solver.
  - apply job_history_ok_step; [|done].
    destruct o; cbn; [|done..]. apply Hfresh. cbn. set_solver.
Qed.

(** The result of a job that a confirmation completes is the value the
    RAG task returned for the job's input. *)
Lemma completed_result_from_rag_task rag cp j pid s job job' :
  jobs s !! j = Some job →
  jobs (step s (PaymentConfirmed rag cp j pid)) !! j = Some job' →
  status job' = completed →
  ∃ r, rag (input_data job) = Ok r ∧ result job' = Some r.
Proof.
  intros Hjob. cbn [step]. rewrite (handle_known_job _ _ _ _ _ _ Hjob).
  cbn [snd jobs]. rewrite lookup_insert_eq. intros [= <-].
  destruct (confirmation_outcome _ _ _ _) as [r|e] eqn:Hout; [|done].
  apply confirmation_outcome_Ok in Hout as (Hrag & _). eauto.
Qed.

(** C1, amended: in every run in which no uuid is drawn twice,
    [complete_payment] is invoked at most once for a job; and a confirmation
    processed for a job that is already [completed] or [failed] does not
    invoke it again, but runs the RAG task once more and leaves the job
    [failed]. *)
Theorem complete_payment_at_most_once ops :
  NoDup (started ops) →
  let s := run ops initial in
  ∀ j,
    (complete_calls j (trace s) ≤ 1)%nat
    ∧ ∀ job, jobs s !! j = Some job → terminal (status job) = true →
        ∀ rag cp pid,
          let s' := step s (PaymentConfirmed rag cp j pid) in
          complete_calls j (trace s') = complete_calls j (trace s)
          ∧ rag_runs j (trace s') = S (rag_runs j (trace s))
          ∧ status <$> jobs s' !! j = Some failed.
Proof.
  intros Hnd s j.
  pose proof (job_history_ok_run ops initial Hnd (λ _ _, eq_refl)
                job_history_ok_initial j) as Hh.
  pose proof (job_consistent_run ops initial job_consistent_initial j) as Hc.
  fold s in Hh, Hc. unfold job_history_ok, job_consistent in *. cbn zeta in Hh.
  split.
  - destruct (jobs s !! j); [tauto|]. destruct Hh as (_ & _ & ->). lia.
  - intros job Hjob Hterm rag cp pid. cbn [step].
    rewrite (handle_known_job _ _ _ _ _ _ Hjob). cbn [snd jobs trace].
    rewrite Hjob in Hc. destruct Hc as [Hc _].
    assert (payment_instances s !! j = None) as ->.
    { destruct (status job); try done; tauto. }
    rewrite complete_calls_app, complete_calls_confirmation.
    rewrite rag_runs_app, rag_runs_confirmation.
    rewrite !decide_True by done. rewrite lookup_insert_eq.
    rewrite bool_decide_eq_false_2 by (by intros [? ?]).
    rewrite andb_false_r.
    split_and!; [lia|lia|].
    unfold confirmation_outcome. by destruct (rag _).
Qed.

Lemma confirmed_job_status job out :
  status (confirmed_job job out) ≠ awaiting_payment.
Proof. by destruct out. Qed.

Lemma payment_iff_awaiting_step s o :
  (∀ j, payment_iff_awaiting s j) → ∀ j, payment_iff_awaiting (step s o) j.
Proof.
  intros Inv j. specialize (Inv j) as Hj. unfold payment_iff_awaiting in *.
  destruct o as [env io data|rag cp j0 pid|check j0]; cbn [step].
  - rewrite start_job_state.
    destruct (admitted io data) as [[hash bid]|e];
      cbn [jobs payment_instances trace]; [|done].
    destruct (decide (uuid4 io = j)) as [<-|Hne].
    + rewrite !lookup_insert_eq. cbn. split; [done|by eexists].
    + by rewrite !lookup_insert_ne.
  - destruct (jobs s !! j0) as [job0|] eqn:Hj0.
    2: { by rewrite handle_unknown_job. }
    rewrite (handle_known_job _ _ _ _ _ _ Hj0).
    cbn [snd jobs payment_instances trace].
    destruct (decide (j0 = j)) as [<-|Hne].
    + rewrite lookup_insert_eq, lookup_delete_eq. split.
      * by intros [? ?].
      * intros H. by apply confirmed_job_status in H.
    + by rewrite lookup_insert_ne, lookup_delete_ne.
  - destruct (jobs s !! j0) as [job0|] eqn:Hj0.
    2: { by rewrite get_status_unknown_job. }
    rewrite (get_status_known_job _ _ _ _ Hj0).
    destruct (payment_instances s !! j0) as [p|] eqn:Hp;
      cbn [snd jobs payment_instances trace]; [|done].
    destruct (decide (j0 = j)) as [<-|Hne].
    + rewrite lookup_insert_eq. rewrite Hj0 in Hj. done.
    + by rewrite lookup_insert_ne.
Qed.

Lemma payment_iff_awaiting_run ops : ∀ s,
  (∀ j, payment_iff_awaiting s j) → ∀ j, payment_iff_awaiting (run ops s) j.
Proof.
  induction ops as [|o ops IH]; intros s Inv; [done|].
  cbn. apply IH. by apply payment_iff_awaiting_step.
Qed.

Lemma confirmation_outcome_is_Ok rag p cp j :
  is_Ok (confirmation_outcome rag p cp j) = true
  ↔ is_Ok rag = true ∧ is_Some p ∧ is_Ok cp = true.
Proof.
  unfold confirmation_outcome.
  destruct rag as [r|e], p as [p|], cp as [[]|e']; cbn; split;
    try done; try (by intros (? & ? & ?)); try (by intros (? & [? ?] & ?)).
Qed.

(** C2, amended: in every run in which no uuid is drawn twice, the status
    of a job takes the values [awaiting_payment], then [running] and
    [completed] or [failed] with the first confirmation processed, then
    [running] and [failed] with every further one; the stored status is the
    last of these values.  No assignment is rejected: [start_job] with a
    fresh uuid stores the job as [awaiting_payment]; every confirmation
    processed for a stored job assigns [running] and then [completed] or
    [failed], the latter being stored; it is [completed] exactly when the job
    awaited payment and the RAG task and [complete_payment] returned, so a
    [completed] or [failed] job becomes [failed]; a confirmation for an id
    without job and a status query assign nothing. *)
Theorem status_follows_confirmations ops :
  NoDup (started ops) →
  let s := run ops initial in
  ∀ j,
    let h := status_history j (trace s) in
    observed_history h = true
    ∧ match jobs s !! j with
      | Some job => last h = Some (status job)
      | None => h = []
      end
    ∧ (∀ env io data,
         uuid4 io = j → jobs s !! j = None →
         let s' := step s (StartJob env io data) in
         match jobs s' !! j with
         | Some job' =>
             status job' = awaiting_payment
             ∧ status_history j (trace s') = [awaiting_payment]
         | None => status_history j (trace s') = []
         end)
    ∧ (∀ job rag cp pid,
         jobs s !! j = Some job →
         let s' := step s (PaymentConfirmed rag cp j pid) in
         ∃ v,
           status_history j (trace s') = h ++ [running; v]
           ∧ status <$> jobs s' !! j = Some v
           ∧ (v = completed ∨ v = failed)
           ∧ (v = completed
              ↔ status job = awaiting_payment
                ∧ is_Ok (rag (input_data job)) = true ∧ is_Ok cp = true)
           ∧ (terminal (status job) = true → v = failed))
    ∧ (∀ rag cp pid,
         jobs s !! j = None → step s (PaymentConfirmed rag cp j pid) = s)
    ∧ (∀ check,
         let s' := step s (GetStatus check j) in
         status_history j (trace s') = h
         ∧ status <$> jobs s' !! j = status <$> jobs s !! j).
Proof.
  intros Hnd s j.
  pose proof (job_history_ok_run ops initial Hnd (λ _ _, eq_refl)
                job_history_ok_initial j) as Hh.
  pose proof (payment_iff_awaiting_run ops initial (λ _, eq_refl) j) as Hp.
  fold s in Hh, Hp. unfold job_history_ok, payment_iff_awaiting in *.
  cbn zeta in *.
  split_and!.
  - destruct (jobs s !! j); [tauto|]. by destruct Hh as (_ & -> & _).
  - destruct (jobs s !! j); [tauto|]. by destruct Hh as (_ & -> & _).
  - intros env io data Hid Hnone. rewrite Hnone in Hh.
    destruct Hh as (_ & Hnil & _). cbn [step]. rewrite start_job_state.
    destruct (admitted io data) as [[hash bid]|e];
      cbn [jobs trace]; rewrite status_history_app, Hnil, Hid.
    + rewrite lookup_insert_eq. cbn. by rewrite decide_True.
    + rewrite Hnone. by destruct (_ && _).
  - intros job rag cp pid Hjob. cbn [step].
    rewrite (handle_known_job _ _ _ _ _ _ Hjob). cbn [snd jobs trace].
    rewrite status_history_app, status_history_confirmation, decide_True by done.
    rewrite lookup_insert_eq. rewrite Hjob in Hp.
    set (out := confirmation_outcome _ _ _ _).
    pose proof (confirmation_outcome_is_Ok (rag (input_data job))
                  (payment_instances s !! j) cp j) as Hout.
    fold out in Hout.
    exists (if is_Ok out then completed else failed).
    split_and!.
    + done.
    + cbn. by destruct out.
    + destruct (is_Ok out); eauto.
    + destruct (is_Ok out) eqn:Hok; split; try done.
      * intros _. destruct (proj1 Hout eq_refl) as (Hr & Hsome & Hc).
        split_and!; [by apply Hp|done|done].
      * intros (Hst & Hr & Hc).
        assert (false = true) as Hf; [|done].
        apply Hout. split_and!; [done|by apply Hp|done].
    + intros Hterm. destruct (is_Ok out) eqn:Hok; [|done].
      destruct (proj1 Hout eq_refl) as (_ & Hsome & _).
      apply Hp in Hsome. by rewrite Hsome in Hterm.
  - intros rag cp pid Hnone. cbn [step]. by rewrite handle_unknown_job.
  - intros check. cbn [step].
    destruct (jobs s !! j) as [job|] eqn:Hjob.
    2: { rewrite get_status_unknown_job by done. cbn [snd]. by rewrite Hjob. }
    rewrite (get_status_known_job _ _ _ _ Hjob).
    destruct (payment_instances s !! j); cbn [snd jobs trace].
    + rewrite status_history_app, lookup_insert_eq. cbn.
      by rewrite app_nil_r.
    + by rewrite Hjob.
Qed.

(** C3, amended: after any run, a stored job is not [running]; a
    [completed] job has a result and no error; a [failed] job has an error,
    and no result if it has never been [completed]. *)
Theorem result_error_of_terminal_job ops j job :
  let s := run ops initial in
  jobs s !! j = Some job →
  status job ≠ running
  ∧ (status job = completed → is_Some (result job) ∧ error job = None)
  ∧ (status job = failed →
       is_Some (error job)
       ∧ (completed ∉ status_history j (trace s) → result job = None)).
Proof.
  intros s Hjob.
  pose proof (job_consistent_run ops initial job_consistent_initial j) as Hc.
  fold s in Hc. unfold job_consistent in Hc. rewrite Hjob in Hc.
  destruct Hc as [Hc Hres].
  destruct (status job); split_and!; try done; tauto.
Qed.

(** C6: a [start_job] request whose [input_data] has no key ["question"]
    fails with status code 400 and changes nothing: no job is stored, no
    payment instance is kept, and no payment request has been made. *)
Theorem start_job_requires_question env io data s :
  req_input_data data !! py "question" = None →
  ∃ detail,
    runM (start_job env io data) s = (Raise (HTTPException 400 detail), s)
    ∧ jobs (step s (StartJob env io data)) = jobs s
    ∧ payment_instances (step s (StartJob env io data)) = payment_instances s
    ∧ trace (step s (StartJob env io data)) = trace s.
Proof.
  intros H. eexists. cbn [step].
  assert (runM (start_job env io data) s =
          (Raise (HTTPException 400 (py
             "Input_data or identifier_from_purchaser is missing, invalid, or does not adhere to the schema.")), s)) as ->.
  { unfold start_job, try_except. cbn. by rewrite H. }
  done.
Qed.

Lemma refreshed_reported st v :
  reported_status st = Ok v → refreshed (Ok st) = v.
Proof. unfold refreshed. cbn. by intros ->. Qed.

Lemma refreshed_degraded check :
  (∀ st, check = Ok st → ¬ is_Ok (reported_status st)) →
  refreshed check = PStr (py "unknown") ∨ refreshed check = PStr (py "error").
Proof.
  intros H. unfold refreshed. destruct check as [st|e]; cbn.
  - specialize (H st eq_refl). destruct (reported_status st) as [v|e]; cbn in *.
    + by destruct H.
    + destruct (is_ValueError e); eauto.
  - destruct (is_ValueError e); eauto.
Qed.

(** C7: for a stored job, [get_status] returns a response with the job id,
    the job's status and result, and a payment status.  Without a payment
    instance this is the stored payment status.  With one, it is the status
    the provider reports, or ["unknown"] or ["error"] when the call raises or
    its answer has no such field. *)
Theorem get_status_always_answers check j s job :
  jobs s !! j = Some job →
  ∃ resp s',
    runM (get_status check j) s = (Ok resp, s')
    ∧ st_job_id resp = j
    ∧ st_status resp = status job
    ∧ st_result resp = result job
    ∧ (payment_instances s !! j = None →
         st_payment_status resp = payment_status job)
    ∧ (is_Some (payment_instances s !! j) →
         (∀ st v, check = Ok st → reported_status st = Ok v →
                  st_payment_status resp = v)
         ∧ ((∀ st, check = Ok st → ¬ is_Ok (reported_status st)) →
              st_payment_status resp = PStr (py "unknown")
              ∨ st_payment_status resp = PStr (py "error"))).
Proof.
  intros Hjob. rewrite (get_status_known_job _ _ _ _ Hjob).
  destruct (payment_instances s !! j) as [p|]; do 2 eexists;
    (split; [reflexivity|]); cbn; split_and!; try done.
  intros _. split.
  - intros st v -> Hv. by apply refreshed_reported.
  - apply refreshed_degraded.
Qed.

(** C9: for a stored job with a payment instance, [get_status] replaces
    the job record by one that differs only in ["payment_status"]; every
    other field and the payment instances are as before.  The value written
    is the one the provider's answer holds under ["data"]["status"]; it is
    [None] when the answer is a dict without ["data"], or when ["data"] is
    a dict without ["status"]; it is ["error"] when the answer or its
    ["data"] is not a dict; when the call raises, it is ["unknown"] for a
    [ValueError] and ["error"] for any other exception. *)
Theorem get_status_overwrites_payment_status check j s job :
  jobs s !! j = Some job →
  is_Some (payment_instances s !! j) →
  let s' := step s (GetStatus check j) in
  ∃ job',
    jobs s' = <[j := job']> (jobs s)
    ∧ payment_instances s' = payment_instances s
    ∧ payment_status job' = refreshed check
    ∧ status job' = status job
    ∧ input_data job' = input_data job
    ∧ result job' = result job
    ∧ blockchain_identifier job' = blockchain_identifier job
    ∧ identifier_from_purchaser job' = identifier_from_purchaser job
    ∧ error job' = error job
    ∧ (∀ answer data v,
         check = Ok (PDict answer) →
         dict_lookup answer (py "data") = Some (PDict data) →
         dict_lookup data (py "status") = Some v →
         payment_status job' = v)
    ∧ (∀ answer data,
         check = Ok (PDict answer) →
         dict_lookup answer (py "data") = Some (PDict data) →
         dict_lookup data (py "status") = None →
         payment_status job' = PNone)
    ∧ (∀ answer,
         check = Ok (PDict answer) →
         dict_lookup answer (py "data") = None →
         payment_status job' = PNone)
    ∧ (∀ answer data,
         check = Ok (PDict answer) →
         dict_lookup answer (py "data") = Some data →
         (∀ kvs, data ≠ PDict kvs) →
         payment_status job' = PStr (py "error"))
    ∧ (∀ answer,
         check = Ok answer → (∀ kvs, answer ≠ PDict kvs) →
         payment_status job' = PStr (py "error"))
    ∧ (∀ e,
         check = Raise e →
         payment_status job'
         = PStr (if is_ValueError e then py "unknown" else py "error")).
Proof.
  intros Hjob [p Hp]. cbn [step]. rewrite (get_status_known_job _ _ _ _ Hjob), Hp.
  cbn [snd jobs payment_instances]. eexists. split; [reflexivity|].
  cbn [payment_status status input_data result blockchain_identifier
       identifier_from_purchaser error set_payment_status].
  split_and!; try done.
  - intros answer data v -> Hd Hv. unfold refreshed, reported_status. cbn.
    rewrite Hd. cbn. by rewrite Hv.
  - intros answer data -> Hd Hv. unfold refreshed, reported_status. cbn.
    rewrite Hd. cbn. by rewrite Hv.
  - intros answer -> Hd. unfold refreshed, reported_status. cbn.
    by rewrite Hd.
  - intros answer data -> Hd Hno. unfold refreshed, reported_status. cbn.
    rewrite Hd. cbn. destruct data; try done. by destruct (Hno kvs).
  - intros answer -> Hno. unfold refreshed, reported_status. cbn.
    destruct answer; try done. by destruct (Hno kvs).
  - by intros e ->.
Qed.

(** ** Further properties of the code *)

(** [str(e)] of a [KeyError] is the [repr] of its key: between single
    quotes; between double quotes when the key has a single quote and no
    double quote; a backslash and a line feed are escaped. *)
Example exc_str_key_error :
  exc_str (KeyError (py "0b8e6f0c-job-1")) = py "'0b8e6f0c-job-1'"
  ∧ exc_str (KeyError (py "it's")) = [34%N] ++ py "it's" ++ [34%N]
  ∧ exc_str (KeyError [97; 92; 10; 7]%N) = py "'a\\\n\x07'".
Proof. vm_compute. done. Qed.

Lemma insert_by_dist_perm p l : faiss.insert_by_dist p l ≡ₚ p :: l.
Proof.
  induction l as [|x l IH]; cbn; [done|].
  destruct (x.1 <=? p.1); [|done].
  rewrite IH. apply Permutation_swap.
Qed.

Lemma insert_by_dist_sorted p l :
  StronglySorted pair_before l →
  Forall (λ x, x.2 < p.2) l →
  StronglySorted pair_before (faiss.insert_by_dist p l).
Proof.
  induction 1 as [|x l Hl IH Hx]; intros Hid; cbn.
  { repeat constructor. }
  apply Forall_cons in Hid as [Hxid Hid].
  destruct (Z.leb_spec x.1 p.1).
  - constructor; [by apply IH|].
    rewrite insert_by_dist_perm. constructor; [|done].
    unfold pair_before. lia.
  - constructor; [by constructor|].
    constructor; [unfold pair_before; lia|].
    eapply Forall_impl; [exact Hx|]. unfold pair_before. intros y. lia.
Qed.

Lemma elem_of_pairs q vs p :
  p ∈ pairs q vs
  ↔ ∃ i v, vs !! i = Some v ∧ p = (faiss.exact_L2sqr q v, Z.of_nat i).
Proof.
  unfold pairs. rewrite elem_of_lookup_imap. naive_solver.
Qed.

Lemma pairs_snoc q vs v :
  pairs q (vs ++ [v])
  = pairs q vs ++ [(faiss.exact_L2sqr q v, Z.of_nat (length vs))].
Proof.
  unfold pairs. rewrite imap_app. cbn. by rewrite Nat.add_0_r.
Qed.

Lemma ranked_sorted q vs : ∀ pre acc,
  in_exact_range q vs →
  StronglySorted pair_before acc → acc ≡ₚ pairs q pre →
  let full := faiss.ranked q vs (Z.of_nat (length pre)) acc in
  StronglySorted pair_before full ∧ full ≡ₚ pairs q (pre ++ vs).
Proof.
  induction vs as [|v vs IH]; intros pre acc Hex Hs Hp; cbn [faiss.ranked].
  { cbn zeta. by rewrite app_nil_r. }
  apply Forall_cons in Hex as [Hv Hex]. rewrite (fvec_L2sqr_exact _ _ Hv).
  replace (Z.of_nat (length pre) + 1) with (Z.of_nat (length (pre ++ [v])))
    by (rewrite length_app; cbn; lia).
  replace (pre ++ v :: vs) with ((pre ++ [v]) ++ vs) by by rewrite <- app_assoc.
  apply IH; [done| |].
  - apply insert_by_dist_sorted; [done|].
    rewrite Forall_forall. intros x Hx. rewrite Hp in Hx.
    apply elem_of_pairs in Hx as (i & w & Hi & ->). cbn.
    apply lookup_lt_Some in Hi. lia.
  - rewrite insert_by_dist_perm, pairs_snoc, Hp.
    by rewrite Permutation_cons_append.
Qed.

Lemma ranked_full q vs :
  in_exact_range q vs →
  let full := faiss.ranked q vs 0 [] in
  StronglySorted pair_before full ∧ full ≡ₚ pairs q vs.
Proof. intros Hex. apply (ranked_sorted q vs [] []); [done|constructor|done]. Qed.

Lemma pairs_ids q vs : Z.to_nat <$> (pairs q vs).*2 = seq 0 (length vs).
Proof.
  unfold pairs. rewrite fmap_imap, fmap_imap.
  rewrite (imap_ext _ (λ i _, i)) by (intros i x _; cbn; lia).
  induction vs as [|v vs IH] using rev_ind; [done|].
  rewrite imap_app, length_app, seq_app, IH. cbn. by rewrite Nat.add_0_r.
Qed.

Lemma ranking_perm q vs :
  in_exact_range q vs → ranking q vs ≡ₚ seq 0 (length vs).
Proof.
  intros Hex. unfold ranking. destruct (ranked_full q vs Hex) as [_ Hp].
  rewrite Hp. by rewrite pairs_ids.
Qed.

Lemma pairs_sorted_ids q vs l :
  StronglySorted pair_before l → Forall (λ p, p ∈ pairs q vs) l →
  StronglySorted (ranks_before q vs) (Z.to_nat <$> l.*2).
Proof.
  induction 1 as [|p l Hl IH Hpl]; intros Hin; [constructor|].
  apply Forall_cons in Hin as [Hp1 Hin].
  cbn. constructor; [by apply IH|].
  rewrite Forall_fmap, Forall_fmap. rewrite Forall_forall in Hpl, Hin.
  rewrite Forall_forall. intros p' Hp'. specialize (Hpl p' Hp').
  apply elem_of_pairs in Hp1 as (i & v & Hi & ->).
  apply Hin, elem_of_pairs in Hp' as (i' & v' & Hi' & ->).
  unfold pair_before in Hpl. unfold ranks_before, distance. cbn in *.
  rewrite !Nat2Z.id, Hi, Hi'. cbn. lia.
Qed.

Lemma ranking_sorted q vs :
  in_exact_range q vs → StronglySorted (ranks_before q vs) (ranking q vs).
Proof.
  intros Hex. unfold ranking. destruct (ranked_full q vs Hex) as [Hs Hp].
  apply pairs_sorted_ids; [done|].
  rewrite Forall_forall. intros p Hpin. by rewrite <- Hp.
Qed.

Lemma list_comp_app {A B} (f : A → PyResult B) xs ys :
  list_comp f (xs ++ ys)
  = (a ← list_comp f xs; b ← list_comp f ys; Ok (a ++ b)).
Proof.
  induction xs as [|x xs IH]; cbn.
  { by destruct (list_comp f ys). }
  destruct (f x) as [y|e]; cbn; [|done]. rewrite IH.
  destruct (list_comp f xs) as [a|e]; cbn; [|done].
  by destruct (list_comp f ys).
Qed.

Lemma list_comp_fmap {A B} (f : A → PyResult B) (g : A → B) xs :
  (∀ x, x ∈ xs → f x = Ok (g x)) → list_comp f xs = Ok (g <$> xs).
Proof.
  induction xs as [|x xs IH]; intros H; [done|]. cbn.
  rewrite H by set_solver. cbn. rewrite IH by set_solver. done.
Qed.

Lemma list_getitem_nat {A} (xs : list A) (i : nat) x :
  xs !! i = Some x → list_getitem xs (Z.of_nat i) = Ok x.
Proof.
  intros Hx. unfold list_getitem. pose proof (lookup_lt_Some _ _ _ Hx).
  cbv zeta. rewrite (proj2 (Z.ltb_ge (Z.of_nat i) 0)) by lia. cbv iota.
  rewrite (proj2 (Z.ltb_ge (Z.of_nat i) 0)) by lia.
  rewrite (proj2 (Z.leb_gt _ _)) by lia. cbn.
  by rewrite Nat2Z.id, Hx.
Qed.

Lemma list_getitem_last {A} (xs : list A) x :
  last xs = Some x → list_getitem xs (-1) = Ok x.
Proof.
  intros Hx. unfold list_getitem.
  assert (0 < length xs)%nat by (destruct xs; [done|cbn; lia]).
  cbv zeta. change (-1 <? 0) with true. cbv iota.
  rewrite (proj2 (Z.ltb_ge _ _)), (proj2 (Z.leb_gt _ _)) by lia. cbn.
  rewrite last_lookup in Hx.
  replace (Z.to_nat (-1 + Z.of_nat (length xs))) with (pred (length xs)) by lia.
  by rewrite Hx.
Qed.

Lemma ranked_labels q vs l :
  l ∈ (faiss.ranked q vs 0 []).*2 →
  ∃ i, l = Z.of_nat i ∧ (i < length vs)%nat.
Proof.
  intros (p & -> & Hp)%list_elem_of_fmap.
  apply ranked_ids in Hp as [Hp|Hp]; [by apply elem_of_nil in Hp|].
  exists (Z.to_nat p.2). lia.
Qed.

Lemma length_ranking q vs :
  in_exact_range q vs → length (ranking q vs) = length vs.
Proof. intros Hex. by rewrite (ranking_perm q vs Hex), length_seq. Qed.

(** What [search] returns on a store with records: the chunks of the [k]
    first records of the ranking, and, when the ranking has fewer, the last
    chunk once for every missing one. *)
Lemma search_spec s q k :
  well_formed s → VectorStore.chunks s ≠ [] → length q = 768%nat → 0 < k →
  let found := take (Z.to_nat k) (ranking q (faiss.xb (VectorStore.index s))) in
  VectorStore.search s q k
  = Ok (fragments_at (VectorStore.chunks s) found
        ++ replicate (Z.to_nat k - length found)
             (default [] (last (VectorStore.chunks s)))).
Proof.
  intros [Hd Hlen] Hne Hq Hk.
  set (cs := VectorStore.chunks s) in *.
  set (vs := faiss.xb (VectorStore.index s)) in *.
  unfold VectorStore.search, faiss.ntotal. fold vs cs.
  destruct (Z.eqb_spec (Z.of_nat (length vs)) 0) as [H0|_].
  { exfalso. apply Hne, nil_length_inv. lia. }
  unfold faiss.search. fold vs.
  rewrite (proj2 (Z.eqb_eq _ _)) by lia.
  rewrite (proj2 (Z.ltb_lt _ _) Hk). cbn [negb mbind PyResult_bind].
  set (ids := (faiss.ranked q vs 0 []).*2).
  rewrite filter_all.
  2: { intros l [Hl|Hl]%elem_of_app.
       - apply elem_of_take in Hl as (i & Hl & _).
         apply list_elem_of_lookup_2, ranked_labels in Hl as (j & -> & ?). lia.
       - apply elem_of_replicate in Hl as [-> _]. lia. }
  rewrite list_comp_app.
  rewrite (list_comp_fmap _ (λ l, default [] (cs !! Z.to_nat l))
            (take (Z.to_nat k) ids)).
  2: { intros l Hl. apply elem_of_take in Hl as (i & Hl & _).
       apply list_elem_of_lookup_2, ranked_labels in Hl as (j & -> & Hj).
       destruct (lookup_lt_is_Some_2 cs j) as [c Hc]; [lia|].
       rewrite Nat2Z.id, Hc. by apply list_getitem_nat. }
  rewrite (list_comp_fmap _ (λ _, default [] (last cs)) (replicate _ _)).
  2: { intros l Hl. apply elem_of_replicate in Hl as [-> _].
       destruct (last cs) as [c|] eqn:Hc.
       - by apply list_getitem_last.
       - apply last_None in Hc. done. }
  cbn [mbind PyResult_bind]. f_equal. f_equal.
  - unfold fragments_at, ranking. fold ids.
    by rewrite <- fmap_take, <- list_fmap_compose.
  - rewrite fmap_replicate. unfold ranking. fold ids.
    by rewrite <- fmap_take, length_fmap.
Qed.

Lemma ranks_before_not_farther q vs i j :
  ranks_before q vs i j → not_farther q vs i j.
Proof. unfold ranks_before, not_farther. lia. Qed.

Lemma sorted_by_distance q vs ids :
  StronglySorted (ranks_before q vs) ids → StronglySorted (not_farther q vs) ids.
Proof.
  induction 1 as [|i ids _ IH Hi]; constructor; [done|].
  eapply Forall_impl; [exact Hi|]. intros j. apply ranks_before_not_farther.
Qed.

Lemma ranking_NoDup q vs : in_exact_range q vs → NoDup (ranking q vs).
Proof. intros Hex. rewrite (ranking_perm q vs Hex). apply NoDup_seq. Qed.

Lemma elem_of_ranking q vs i :
  in_exact_range q vs → i ∈ ranking q vs ↔ (i < length vs)%nat.
Proof. intros Hex. rewrite (ranking_perm q vs Hex), elem_of_seq. lia. Qed.

(** X2: on a store built by [add] calls, whose vectors are with the query
    in the range where the index computes exactly, a search with a query of
    768 coordinates and [0 < k] at most the number of records returns the
    chunks of [k] different records, by non-decreasing squared distance to
    the query; no record returned is farther from the query than a record
    left out. *)
Theorem search_returns_nearest ops q k :
  let s := VectorStore.run ops VectorStore.init in
  let cs := VectorStore.chunks s in
  let vs := faiss.xb (VectorStore.index s) in
  in_exact_range q vs →
  length q = 768%nat → 0 < k ≤ Z.of_nat (length cs) →
  ∃ ids,
    VectorStore.search s q k = Ok (fragments_at cs ids)
    ∧ length ids = Z.to_nat k
    ∧ NoDup ids
    ∧ (∀ i, i ∈ ids → (i < length cs)%nat)
    ∧ StronglySorted (not_farther q vs) ids
    ∧ ∀ i j, i ∈ ids → j ∉ ids → (j < length cs)%nat → not_farther q vs i j.
Proof.
  intros s cs vs Hex Hq Hk.
  pose proof (well_formed_run ops) as Hwf. fold s in Hwf.
  assert (length vs = length cs) as Hlen by (symmetry; apply Hwf).
  assert (cs ≠ []) as Hne by (intros Hnil; rewrite Hnil in Hk; cbn in Hk; lia).
  exists (take (Z.to_nat k) (ranking q vs)).
  pose proof (ranking_sorted q vs Hex) as Hs.
  pose proof (length_ranking q vs Hex) as Hn.
  rewrite <- (take_drop (Z.to_nat k) (ranking q vs)) in Hs.
  split_and!.
  - rewrite (search_spec s q k Hwf Hne Hq) by lia. cbv zeta. fold cs vs.
    replace (Z.to_nat k - length (take (Z.to_nat k) (ranking q vs)))%nat
      with 0%nat by (rewrite length_take; lia).
    by rewrite app_nil_r.
  - rewrite length_take. lia.
  - eapply sublist_NoDup; [apply (ranking_NoDup q vs Hex)|apply sublist_take].
  - intros i Hi%elem_of_take. destruct Hi as (n & Hi%list_elem_of_lookup_2 & _).
    apply (elem_of_ranking q vs i Hex) in Hi. lia.
  - apply StronglySorted_app_1_l in Hs. by apply sorted_by_distance.
  - intros i j Hi Hj Hjn. apply ranks_before_not_farther.
    eapply StronglySorted_app_1_elem_of; [exact Hs|exact Hi|].
    assert (j ∈ ranking q vs) as Hin by (apply (elem_of_ranking q vs j Hex); lia).
    rewrite <- (take_drop (Z.to_nat k) (ranking q vs)) in Hin.
    apply elem_of_app in Hin as [?|?]; done.
Qed.

(** X3: on a store with records, whose vectors are with the query in the
    range where the index computes exactly, a search with [k] above their
    number returns the chunk of every record once, by non-decreasing squared
    distance to the query, and then the last stored chunk once for each of
    the [k - n] missing neighbours. *)
Theorem search_pads_with_last_chunk ops q k :
  let s := VectorStore.run ops VectorStore.init in
  let cs := VectorStore.chunks s in
  let vs := faiss.xb (VectorStore.index s) in
  in_exact_range q vs →
  length q = 768%nat → cs ≠ [] → Z.of_nat (length cs) < k →
  ∃ ids,
    VectorStore.search s q k
    = Ok (fragments_at cs ids
          ++ replicate (Z.to_nat k - length cs) (default [] (last cs)))
    ∧ ids ≡ₚ seq 0 (length cs)
    ∧ StronglySorted (not_farther q vs) ids.
Proof.
  intros s cs vs Hex Hq Hne Hk.
  pose proof (well_formed_run ops) as Hwf. fold s in Hwf.
  assert (length vs = length cs) as Hlen by (symmetry; apply Hwf).
  pose proof (length_ranking q vs Hex) as Hn.
  exists (ranking q vs). split_and!.
  - rewrite (search_spec s q k Hwf Hne Hq) by lia. cbv zeta. fold cs vs.
    rewrite take_ge by lia. by rewrite Hn, Hlen.
  - by rewrite (ranking_perm q vs Hex), Hlen.
  - by apply sorted_by_distance, ranking_sorted.
Qed.

Lemma search_asserts s q k :
  well_formed s → VectorStore.chunks s ≠ [] →
  length q ≠ 768%nat ∨ k ≤ 0 →
  VectorStore.search s q k = Raise AssertionError.
Proof.
  intros [Hd Hlen] Hne Hbad.
  unfold VectorStore.search, faiss.ntotal, faiss.search.
  destruct (Z.eqb_spec (Z.of_nat (length (faiss.xb (VectorStore.index s)))) 0)
    as [H0|_].
  { exfalso. apply Hne, nil_length_inv. lia. }
  rewrite Hd. destruct Hbad as [Hq|Hk].
  - by rewrite (proj2 (Z.eqb_neq _ _)) by lia.
  - destruct (_ =? _); [|done]. cbn.
    by rewrite (proj2 (Z.ltb_ge _ _)) by lia.
Qed.

Lemma search_empty_store s q k :
  well_formed s → VectorStore.chunks s = [] → VectorStore.search s q k = Ok [].
Proof.
  intros [_ Hlen] Hcs. unfold VectorStore.search, faiss.ntotal.
  rewrite Hcs in Hlen.
  destruct (faiss.xb (VectorStore.index s)); [done|cbn in Hlen; lia].
Qed.

(** X4: on the empty store [search] returns the empty list without looking at
    the query or at [k]; on a store with records it raises [AssertionError]
    when the query has not 768 coordinates or [k] is not positive, and
    returns otherwise. *)
Theorem search_errors ops q k :
  let s := VectorStore.run ops VectorStore.init in
  match VectorStore.chunks s with
  | [] => VectorStore.search s q k = Ok []
  | _ :: _ =>
      (length q ≠ 768%nat ∨ k ≤ 0 →
       VectorStore.search s q k = Raise AssertionError)
      ∧ (length q = 768%nat → 0 < k → is_Ok (VectorStore.search s q k) = true)
  end.
Proof.
  intros s. pose proof (well_formed_run ops) as Hwf. fold s in Hwf.
  destruct (VectorStore.chunks s) as [|c cs] eqn:Hcs.
  { by apply search_empty_store. }
  assert (VectorStore.chunks s ≠ []) as Hne by by rewrite Hcs.
  split.
  - by apply search_asserts.
  - intros Hq Hk.
    by destruct (search_answers s q k Hwf Hne Hq Hk) as (rs & -> & _).
Qed.

Lemma chunk_text_lookup text i c :
  chunk_text text !! i = Some c ↔
  (i < (length text + 999) / 1000)%nat ∧ c = take 1000 (drop (i * 1000) text).
Proof.
  unfold chunk_text, py_range, str_slice.
  rewrite <- list_fmap_compose, list_lookup_fmap.
  replace (length text + 1000 - 1)%nat with (length text + 999)%nat by lia.
  destruct (decide (i < (length text + 999) / 1000)%nat) as [Hi|Hi].
  - rewrite lookup_seq_lt by done. cbn.
    replace (i * 1000 + 1000 - i * 1000)%nat with 1000%nat by lia.
    naive_solver.
  - rewrite lookup_seq_ge by lia. cbn. naive_solver.
Qed.

Lemma length_chunk_text text :
  length (chunk_text text) = ((length text + 999) / 1000)%nat.
Proof.
  unfold chunk_text, py_range. rewrite !length_fmap, length_seq.
  f_equal. lia.
Qed.

Lemma concat_slices (text : list N) n :
  concat ((λ i, take 1000 (drop (i * 1000) text)) <$> seq 0 n)
  = take (n * 1000) text.
Proof.
  induction n as [|n IH]; [done|].
  rewrite seq_S, fmap_app, concat_app, IH. cbn. rewrite app_nil_r.
  rewrite take_take_drop. f_equal. lia.
Qed.

(** X5: the chunks of a text, concatenated, give the text back; there are
    ceil(len/1000) of them; each has between 1 and 1000 characters, and each
    but the last exactly 1000.  The empty text has no chunk. *)
Theorem chunk_text_partition text :
  concat (chunk_text text) = text
  ∧ length (chunk_text text) = ((length text + 999) / 1000)%nat
  ∧ ∀ i c, chunk_text text !! i = Some c →
      (0 < length c ≤ 1000)%nat
      ∧ ((S i < length (chunk_text text))%nat → length c = 1000%nat).
Proof.
  pose proof (Nat.div_mod_eq (length text + 999) 1000) as Hdiv.
  pose proof (Nat.mod_upper_bound (length text + 999) 1000) as Hmod.
  split_and!.
  - unfold chunk_text, py_range, str_slice.
    rewrite <- list_fmap_compose.
    rewrite (list_fmap_ext _ (λ i, take 1000 (drop (i * 1000) text))).
    2: { intros i x _. cbn. f_equal. lia. }
    rewrite concat_slices. apply take_ge.
    replace (length text + 1000 - 1)%nat with (length text + 999)%nat by lia.
    lia.
  - apply length_chunk_text.
  - intros i c [Hi ->]%chunk_text_lookup.
    rewrite length_chunk_text, length_take, length_drop. lia.
Qed.

Lemma add_indexable ge s c :
  well_formed s → indexable ge c →
  ∃ emb s', ge c = Ok emb ∧ VectorStore.add s emb c = Ok s' ∧ well_formed s'
    ∧ VectorStore.chunks s' = VectorStore.chunks s ++ [c]
    ∧ faiss.xb (VectorStore.index s') = faiss.xb (VectorStore.index s) ++ [emb].
Proof.
  intros [Hd Hlen] (emb & Hemb & Hdim). exists emb.
  destruct (VectorStore.add s emb c) as [s'|e] eqn:Hadd.
  - exists s'. apply add_Ok in Hadd as (_ & Hd' & Hxb & Hcs).
    split_and!; try done. split; [congruence|].
    rewrite Hxb, Hcs, !length_app. cbn. lia.
  - apply add_Raise in Hadd. lia.
Qed.


Lemma index_chunks_all ge chunks : ∀ s,
  well_formed s → Forall (indexable ge) chunks →
  ∃ s' embs,
    index_chunks ge chunks s = (Ok (), s') ∧ well_formed s'
    ∧ VectorStore.chunks s' = VectorStore.chunks s ++ chunks
    ∧ faiss.xb (VectorStore.index s') = faiss.xb (VectorStore.index s) ++ embs
    ∧ Forall2 (λ c emb, ge c = Ok emb) chunks embs.
Proof.
  induction chunks as [|c chunks IH]; intros s Hwf Hall.
  { exists s, []. cbn. rewrite !app_nil_r. split_and!; done. }
  apply Forall_cons in Hall as [Hc Hall].
  destruct (add_indexable ge s c Hwf Hc) as (emb & s1 & Hemb & Hadd & Hwf1 & Hcs & Hxb).
  destruct (IH s1 Hwf1 Hall) as (s' & embs & Hrun & Hwf' & Hcs' & Hxb' & Hembs).
  exists s', (emb :: embs). cbn. rewrite Hemb, Hadd, Hrun.
  split_and!; try done.
  - by rewrite Hcs', Hcs, <- app_assoc.
  - by rewrite Hxb', Hxb, <- app_assoc.
  - by constructor.
Qed.



Lemma upload_pdf_loaded ge text s :
  upload_pdf (Ok ()) (Ok text) ge s
  = match index_chunks ge (chunk_text text) s with
    | (Ok _, s') =>
        (Ok (mkUploadResponse (py "PDF uploaded and indexed successfully")
               (length (chunk_text text))), s')
    | (Raise e, s') =>
        (Raise (HTTPException 500 (py "Error processing PDF: " ++ exc_str e)), s')
    end.
Proof.
  unfold upload_pdf. cbv zeta iota.
  by destruct (index_chunks ge (chunk_text text) s) as [[[]|e] s'].
Qed.

(** X6: when the upload is saved, the text extracted, and every chunk of
    the text has an embedding of 768 coordinates, [upload_pdf] answers with
    the number of chunks, and the store has the chunks of the text appended
    in order, each with its embedding at the same position. *)
Theorem upload_pdf_indexes_document ge text s :
  well_formed s → Forall (indexable ge) (chunk_text text) →
  ∃ s' embs,
    upload_pdf (Ok ()) (Ok text) ge s
    = (Ok (mkUploadResponse (py "PDF uploaded and indexed successfully")
             (length (chunk_text text))), s')
    ∧ VectorStore.chunks s' = VectorStore.chunks s ++ chunk_text text
    ∧ faiss.xb (VectorStore.index s') = faiss.xb (VectorStore.index s) ++ embs
    ∧ Forall2 (λ c emb, ge c = Ok emb) (chunk_text text) embs
    ∧ well_formed s'.
Proof.
  intros Hwf Hall.
  destruct (index_chunks_all ge _ s Hwf Hall) as (s' & embs & Hrun & ? & ? & ? & ?).
  exists s', embs. rewrite upload_pdf_loaded, Hrun. done.
Qed.



Lemma split_from_word w : ∀ cur r,
  Forall (λ c, isspace c = false) w →
  split_from cur (w ++ r) = split_from (cur ++ w) r.
Proof.
  induction w as [|c w IH]; intros cur r Hw; cbn.
  { by rewrite app_nil_r. }
  apply Forall_cons in Hw as [-> Hw].
  rewrite IH by done. by rewrite <- app_assoc.
Qed.

Lemma split_join_words ws :
  Forall word ws → str_split (json.str_join (py " ") ws) = ws.
Proof.
  unfold str_split.
  induction 1 as [|w ws [Hne Hw] Hws IH]; [done|].
  destruct ws as [|w' ws].
  - cbn [json.str_join]. rewrite <- (app_nil_r w) at 1.
    rewrite split_from_word by done. cbn. by destruct w.
  - change (json.str_join (py " ") (w :: w' :: ws))
      with (w ++ 32%N :: json.str_join (py " ") (w' :: ws)).
    rewrite split_from_word by done. cbn [app split_from].
    change (isspace 32) with true. cbv iota. rewrite IH. by destruct w.
Qed.

Lemma substitute_sanitized text : substitute (sanitize text) = sanitize text.
Proof.
  rewrite substitute_only_rupee.
  - apply str_replace_absent. apply sanitize_without_markers. set_solver.
  - intros c Hc. apply sanitize_without_markers. set_solver.
Qed.

(** X9: the fallback sanitization is idempotent: sanitizing a sanitized
    answer changes nothing. *)
Theorem sanitize_idempotent text : sanitize (sanitize text) = sanitize text.
Proof.
  unfold sanitize at 1. cbv zeta. rewrite substitute_sanitized.
  unfold sanitize. cbv zeta. rewrite split_join_words; [done|].
  apply split_from_words. constructor.
Qed.

Lemma str_join_Forall (P : N → Prop) sep parts :
  Forall P sep → Forall (Forall P) parts → Forall P (json.str_join sep parts).
Proof.
  intros Hsep. induction 1 as [|p [|p' ps] Hp Hps IH]; cbn [json.str_join].
  - constructor.
  - done.
  - rewrite !Forall_app. auto.
Qed.

Lemma hex_digit_printable n : (n < 16)%N → printable (json.hex_digit n).
Proof.
  unfold json.hex_digit, printable. destruct (N.ltb_spec n 10); lia.
Qed.

Lemma u_escape_printable n : Forall printable (json.u_escape n).
Proof.
  unfold json.u_escape.
  repeat (constructor; [first [apply hex_digit_printable; apply N.mod_lt; lia
                              |unfold printable; lia]|]).
  constructor.
Qed.

Lemma escape_char_printable c : Forall printable (json.escape_char c).
Proof.
  unfold json.escape_char.
  repeat match goal with
         | |- context [if ?b then _ else _] => destruct b eqn:?
         end;
    rewrite ?Forall_app; try (split; apply u_escape_printable);
    try apply u_escape_printable;
    try (repeat constructor; unfold printable; lia).
  match goal with
  | H : (_ <=? _)%N && _ = true |- _ =>
      apply andb_true_iff in H as [?%N.leb_le ?%N.leb_le]
  end.
  repeat constructor; unfold printable; lia.
Qed.

Lemma encode_str_printable s : Forall printable (json.encode_str s).
Proof.
  unfold json.encode_str. rewrite !Forall_app. split_and!.
  - repeat constructor; unfold printable; lia.
  - rewrite Forall_forall. intros c (c' & Hc & _)%list_elem_of_bind.
    pose proof (escape_char_printable c') as H. rewrite Forall_forall in H. auto.
  - repeat constructor; unfold printable; lia.
Qed.

Lemma py_literal_printable (s : string) :
  forallb (λ c, (32 <=? c)%N && (c <=? 126)%N) (py s) = true →
  Forall printable (py s).
Proof.
  intros H. rewrite Forall_forall. intros c Hc.
  rewrite forallb_forall in H. apply list_elem_of_In in Hc.
  specialize (H c Hc). apply andb_true_iff in H as [?%N.leb_le ?%N.leb_le].
  unfold printable. lia.
Qed.

Lemma string_of_uint_printable u :
  Forall printable (py (NilEmpty.string_of_uint u)).
Proof.
  unfold py. induction u; cbn; constructor; try done; unfold printable; lia.
Qed.

Lemma int_str_printable n : Forall printable (int_str n).
Proof.
  unfold int_str, NilZero.string_of_int, NilZero.string_of_uint.
  destruct (Z.to_int n) as [u|u].
  - destruct u; try apply (string_of_uint_printable (_ _)).
    by apply py_literal_printable.
  - unfold py. cbn. constructor; [unfold printable; lia|].
    destruct u; try apply (string_of_uint_printable (_ _)).
    by apply py_literal_printable.
Qed.

Lemma dumps_printable float_repr v :
  (∀ f, Forall printable (float_repr f)) →
  Forall printable (json.dumps float_repr v).
Proof.
  intros Hf. induction v as [|[]| | | |xs IH|kvs IH] using pyval_induction;
    cbn [json.dumps].
  - by apply py_literal_printable.
  - by apply py_literal_printable.
  - by apply py_literal_printable.
  - apply int_str_printable.
  - apply Hf.
  - apply encode_str_printable.
  - rewrite !Forall_app.
    split_and!; [by apply py_literal_printable| |by apply py_literal_printable].
    apply str_join_Forall; [by apply py_literal_printable|].
    by apply Forall_fmap.
  - rewrite !Forall_app.
    split_and!; [by apply py_literal_printable| |by apply py_literal_printable].
    apply str_join_Forall; [by apply py_literal_printable|].
    apply Forall_fmap. eapply Forall_impl; [exact IH|].
    intros [k x] Hx. unfold compose. cbn [fst snd] in *. rewrite !Forall_app.
    split_and!; [apply encode_str_printable|by apply py_literal_printable|done].
Qed.

Lemma answer_of_response_dict json_loads float_repr text :
  ∃ kvs,
    is_Some (dict_lookup kvs (py "answer"))
    ∧ answer_of_response json_loads float_repr text
      = json.dumps float_repr (PDict kvs).
Proof.
  assert (is_Some (dict_lookup [(py "answer", PStr (sanitize text))] (py "answer")))
    as Hfallback.
  { cbn. rewrite decide_True by done. by eexists. }
  unfold answer_of_response.
  destruct (json_loads text) as [parsed|e]; [|by eexists].
  destruct (is_dict_with (py "answer") parsed) eqn:Hd; [|by eexists].
  destruct parsed as [| | | | | |kvs]; try done.
  apply bool_decide_eq_true in Hd. by exists kvs.
Qed.

(** X10: a result of [execute_rag_task] consists of printable ASCII
    characters only (the float printer giving such), and is the serialization
    of a dict that has the key ["answer"]. *)
Theorem rag_result_is_ascii_json json_loads float_repr get_embedding
    generate_content vector_store input_data r :
  (∀ f, Forall printable (float_repr f)) →
  execute_rag_task json_loads float_repr get_embedding generate_content
    vector_store input_data = Ok r →
  Forall printable r
  ∧ ∃ kvs, is_Some (dict_lookup kvs (py "answer"))
           ∧ r = json.dumps float_repr (PDict kvs).
Proof.
  intros Hf (_ & _ & _ & text & _ & _ & _ & _ & _ & ->)%execute_rag_task_Ok.
  destruct (answer_of_response_dict json_loads float_repr text) as (kvs & Hk & Hr).
  split; [|by exists kvs].
  rewrite Hr. by apply dumps_printable.
Qed.

(** X11: [execute_rag_task] raises [ValueError] with the message
    "Question missing from input_data" when the question is absent or empty;
    it raises what the embedding service raises; and on a store with records
    it raises [AssertionError] when the embedding of the question has not 768
    coordinates. *)
Theorem execute_rag_task_errors json_loads float_repr get_embedding
    generate_content ops input_data :
  let vector_store := VectorStore.run ops VectorStore.init in
  let task := execute_rag_task json_loads float_repr get_embedding
                generate_content vector_store input_data in
  (input_data !! py "question" = None ∨ input_data !! py "question" = Some [] →
     task = Raise (ValueError (py "Question missing from input_data")))
  ∧ (∀ query e, input_data !! py "question" = Some query → query ≠ [] →
       get_embedding query = Raise e → task = Raise e)
  ∧ (∀ query emb, input_data !! py "question" = Some query → query ≠ [] →
       get_embedding query = Ok emb → length emb ≠ 768%nat →
       VectorStore.chunks vector_store ≠ [] → task = Raise AssertionError).
Proof.
  intros vs task. unfold task, execute_rag_task. split_and!.
  - by intros [->| ->].
  - intros query e -> Hne ->. by destruct query.
  - intros query emb -> Hne -> Hdim Hcs. destruct query; [done|]. cbn.
    rewrite search_asserts; [done|apply well_formed_run|done|by left].
Qed.

(** X12: with a question that is not empty, an embedding of it that has 768
    coordinates (or any embedding when nothing was uploaded) and a generation
    service that answers, [execute_rag_task] returns: the context is made of
    the chunks the search returns, none when nothing was uploaded, and the
    result is made from the generated text. *)
Theorem execute_rag_task_succeeds json_loads float_repr get_embedding
    generate_content ops input_data query emb :
  let vector_store := VectorStore.run ops VectorStore.init in
  input_data !! py "question" = Some query → query ≠ [] →
  get_embedding query = Ok emb →
  (length emb = 768%nat ∨ VectorStore.chunks vector_store = []) →
  (∀ context, is_Ok (generate_content context query) = true) →
  ∃ context_chunks text,
    VectorStore.search vector_store emb 5 = Ok context_chunks
    ∧ (VectorStore.chunks vector_store = [] → context_chunks = [])
    ∧ generate_content (json.str_join [10; 10]%N context_chunks) query = Ok text
    ∧ execute_rag_task json_loads float_repr get_embedding generate_content
        vector_store input_data
      = Ok (answer_of_response json_loads float_repr text).
Proof.
  intros vs Hq Hne Hemb Hdim Hgen. unfold execute_rag_task. rewrite Hq.
  destruct query as [|c query]; [done|]. rewrite Hemb. cbn.
  pose proof (well_formed_run ops) as Hwf. fold vs in Hwf.
  assert (∃ cc, VectorStore.search vs emb 5 = Ok cc
                ∧ (VectorStore.chunks vs = [] → cc = [])) as (cc & Hcc & Hnil).
  { destruct (decide (VectorStore.chunks vs = [])) as [Hcs|Hcs].
    - exists []. split; [by apply search_empty_store|done].
    - destruct Hdim as [Hdim|?]; [|done].
      destruct (search_answers vs emb 5 Hwf Hcs Hdim) as (rs & Hrs & _); [lia|].
      by exists rs. }
  rewrite Hcc. cbn.
  specialize (Hgen (json.str_join [10; 10]%N cc)).
  destruct (generate_content _ _) as [text|] eqn:Hg; [|done].
  exists cc, text. done.
Qed.

(** X13: [start_job] either returns a response with status ["success"] and
    the uuid drawn as job id, or raises [HTTPException] with status code 400,
    whatever went wrong. *)
Theorem start_job_raises_only_400 env io data s :
  match (runM (start_job env io data) s).1 with
  | Ok resp => resp_job_id resp = uuid4 io ∧ resp_status resp = py "success"
  | Raise e => ∃ detail, e = HTTPException 400 detail
  end.
Proof.
  unfold start_job, try_except. cbn.
  destruct (bool_decide _); cbn; [|by eexists].
  destruct (new_payment io) as [hash|e]; cbn; [|case_exc; by eexists].
  destruct (create_payment_request io) as [pr|e]; cbn; [|case_exc; by eexists].
  destruct (py_getitem pr _) as [rd|e]; cbn; [|case_exc; by eexists].
  destruct (py_getitem rd (py "blockchainIdentifier")) as [bid|e]; cbn;
    [|case_exc; by eexists].
  destruct (hashable bid); cbn; [|by eexists].
  destruct (start_status_monitoring io) as [[]|e]; cbn; [|case_exc; by eexists].
  repeat (match goal with
          | |- context [py_getitem ?a ?b] => destruct (py_getitem a b); cbn
          end; try (case_exc; by eexists)).
  done.
Qed.

(** X14: when the request has a question and the payment provider answers
    with a well-formed payment request, [start_job] returns the job id, the
    blockchain identifier, the four times and the input hash; it has stored
    the job as awaiting payment with a payment instance, made one payment
    request and started the monitor; and a status query that follows reports
    [awaiting_payment] and no result. *)
Theorem start_job_then_status env io data s hash pr rd bid t1 t2 t3 t4 check :
  is_Some (req_input_data data !! py "question") →
  new_payment io = Ok hash →
  create_payment_request io = Ok pr →
  py_getitem pr (py "data") = Ok rd →
  py_getitem rd (py "blockchainIdentifier") = Ok bid →
  hashable bid = true →
  start_status_monitoring io = Ok () →
  py_getitem rd (py "submitResultTime") = Ok t1 →
  py_getitem rd (py "unlockTime") = Ok t2 →
  py_getitem rd (py "externalDisputeUnlockTime") = Ok t3 →
  py_getitem rd (py "payByTime") = Ok t4 →
  let job_id := uuid4 io in
  ∃ resp s1,
    runM (start_job env io data) s = (Ok resp, s1)
    ∧ resp_job_id resp = job_id
    ∧ resp_blockchainIdentifier resp = bid
    ∧ (resp_submitResultTime resp, resp_unlockTime resp,
       resp_externalDisputeUnlockTime resp, resp_payByTime resp)
      = (t1, t2, t3, t4)
    ∧ resp_input_hash resp = hash
    ∧ jobs s1 = <[job_id := new_job data bid]> (jobs s)
    ∧ is_Some (payment_instances s1 !! job_id)
    ∧ trace s1 = trace s ++ [EvCreatePaymentRequest job_id;
                             EvStatus job_id awaiting_payment;
                             EvStartMonitoring job_id]
    ∧ ∃ st s2,
        runM (get_status check job_id) s1 = (Ok st, s2)
        ∧ st_job_id st = job_id
        ∧ st_status st = awaiting_payment
        ∧ st_result st = None.
Proof.
  intros Hq Hnew Hcreate Hdata Hbid Hhash Hmon H1 H2 H3 H4 job_id.
  destruct s as [js ps tr].
  assert (∃ resp,
    runM (start_job env io data) (mkState js ps tr)
    = (Ok resp,
       mkState (<[job_id := new_job data bid]> js)
         (<[job_id := mkPayment (AGENT_IDENTIFIER env)
                        (req_identifier_from_purchaser data)
                        (req_input_data data) (NETWORK env) hash [bid]]> ps)
         (tr ++ [EvCreatePaymentRequest job_id;
                 EvStatus job_id awaiting_payment;
                 EvStartMonitoring job_id]))
    ∧ resp_job_id resp = job_id
    ∧ resp_blockchainIdentifier resp = bid
    ∧ (resp_submitResultTime resp, resp_unlockTime resp,
       resp_externalDisputeUnlockTime resp, resp_payByTime resp)
      = (t1, t2, t3, t4)
    ∧ resp_input_hash resp = hash) as (resp & Hrun & Hid & Hb & Ht & Hh).
  { unfold start_job, try_except. cbn.
    rewrite (bool_decide_eq_true_2 _ Hq). cbn.
    rewrite Hnew. cbn. rewrite Hcreate. cbn. rewrite Hdata. cbn.
    rewrite Hbid. cbn. rewrite Hhash. cbn. rewrite Hmon. cbn.
    rewrite H1. cbn. rewrite H2. cbn. rewrite H3. cbn. rewrite H4. cbn.
    rewrite <- !app_assoc. eexists. split; [reflexivity|]. done. }
  eexists resp, _. split; [exact Hrun|]. cbn [jobs payment_instances trace].
  split_and!; try done.
  { rewrite lookup_insert_eq. by eexists. }
  erewrite get_status_known_job; [|apply lookup_insert_eq].
  cbn [payment_instances]. rewrite lookup_insert_eq. by eexists _, _.
Qed.

(** X15: when starting the monitor raises, or the payment request lacks one
    of the four times, [start_job] raises [HTTPException] 400 although the job
    and its payment instance have been stored. *)
Theorem start_job_failure_after_storing env io data s hash pr rd bid e :
  is_Some (req_input_data data !! py "question") →
  new_payment io = Ok hash →
  create_payment_request io = Ok pr →
  py_getitem pr (py "data") = Ok rd →
  py_getitem rd (py "blockchainIdentifier") = Ok bid →
  hashable bid = true →
  start_status_monitoring io = Raise e
  ∨ (∃ key, key ∈ [py "submitResultTime"; py "unlockTime";
                   py "externalDisputeUnlockTime"; py "payByTime"]
            ∧ py_getitem rd key = Raise e) →
  ∃ detail s1,
    runM (start_job env io data) s = (Raise (HTTPException 400 detail), s1)
    ∧ jobs s1 !! uuid4 io = Some (new_job data bid)
    ∧ is_Some (payment_instances s1 !! uuid4 io).
Proof.
  intros Hq Hnew Hcreate Hdata Hbid Hhash Hfail.
  pose proof (start_job_state env io data s) as Hstate.
  assert (admitted io data = Ok (hash, bid)) as Hadm.
  { unfold admitted. rewrite (bool_decide_eq_true_2 _ Hq). cbn.
    rewrite Hnew. cbn. rewrite Hcreate. cbn. rewrite Hdata. cbn.
    rewrite Hbid. cbn. by rewrite Hhash. }
  rewrite Hadm in Hstate.
  assert (∃ detail, (runM (start_job env io data) s).1
                    = Raise (HTTPException 400 detail)) as [detail Hres].
  { unfold start_job, try_except. cbn.
    rewrite (bool_decide_eq_true_2 _ Hq). cbn.
    rewrite Hnew. cbn. rewrite Hcreate. cbn. rewrite Hdata. cbn.
    rewrite Hbid. cbn. rewrite Hhash. cbn.
    destruct Hfail as [->|(key & Hkey & Hraise)].
    { cbn. case_exc; by eexists. }
    destruct (start_status_monitoring io) as [[]|e0]; cbn;
      [|case_exc; by eexists].
    repeat (apply elem_of_cons in Hkey as [->|Hkey];
            [rewrite Hraise; cbn; case_exc; by eexists|];
            match goal with
            | |- context [py_getitem ?a ?b] =>
                destruct (py_getitem a b); cbn; [|case_exc; by eexists]
            end).
    by apply elem_of_nil in Hkey. }
  destruct (runM (start_job env io data) s) as [r s1]. cbn in *. subst r s1.
  eexists detail, _. split; [reflexivity|]. cbn.
  rewrite !lookup_insert_eq. split; [done|by eexists].
Qed.

(** X16: a confirmation for a stored job with a payment instance, whose
    RAG task and [complete_payment] go through, leaves the job [completed]
    with the result and payment status ["completed"], removes the payment
    instance, and has invoked [complete_payment] once, with the payment id
    and the result, before stopping the monitor; a status query that follows
    returns that status and result and changes nothing. *)
Theorem confirmation_completes_job rag j pid s job p r check :
  jobs s !! j = Some job →
  payment_instances s !! j = Some p →
  rag (input_data job) = Ok r →
  let s' := step s (PaymentConfirmed rag (Ok ()) j pid) in
  jobs s' = <[j := mkJob completed (PStr (py "completed"))
                     (blockchain_identifier job) (input_data job) (Some r)
                     (identifier_from_purchaser job) (error job)]> (jobs s)
  ∧ payment_instances s' = delete j (payment_instances s)
  ∧ trace s' = trace s ++ [EvStatus j running; EvRagTask j;
                           EvCompletePayment j pid r;
                           EvStatus j completed; EvStopMonitoring j]
  ∧ runM (get_status check j) s'
    = (Ok (mkStatusResponse j completed (PStr (py "completed")) (Some r)), s').
Proof.
  intros Hjob Hp Hrag s'. unfold s'. cbn [step].
  rewrite (handle_known_job _ _ _ _ _ _ Hjob), Hp, Hrag.
  cbn [snd jobs payment_instances trace]. split_and!; try done.
  erewrite get_status_known_job; [|apply lookup_insert_eq].
  cbn [payment_instances]. by rewrite lookup_delete_eq.
Qed.

(** X17: a confirmation whose RAG task raises, or whose [complete_payment]
    raises, leaves the job [failed] with the text of the exception as error
    and its result as it was, and removes the payment instance;
    [complete_payment] has not been invoked in the first case and has in the
    second, where the computed result is not stored. *)
Theorem confirmation_fails_job rag cp j pid s job e :
  jobs s !! j = Some job →
  rag (input_data job) = Raise e
  ∨ (∃ r, rag (input_data job) = Ok r
          ∧ is_Some (payment_instances s !! j) ∧ cp = Raise e) →
  let s' := step s (PaymentConfirmed rag cp j pid) in
  jobs s' = <[j := mkJob failed (payment_status job)
                     (blockchain_identifier job) (input_data job) (result job)
                     (identifier_from_purchaser job) (Some (exc_str e))]> (jobs s)
  ∧ payment_instances s' = delete j (payment_instances s)
  ∧ (rag (input_data job) = Raise e →
       complete_calls j (trace s') = complete_calls j (trace s))
  ∧ (is_Ok (rag (input_data job)) = true →
       complete_calls j (trace s') = S (complete_calls j (trace s))).
Proof.
  intros Hjob Hfail s'. unfold s'. cbn [step].
  rewrite (handle_known_job _ _ _ _ _ _ Hjob).
  cbn [snd jobs payment_instances trace].
  rewrite complete_calls_app, complete_calls_confirmation, decide_True by done.
  destruct Hfail as [Hrag|(r & Hrag & [p Hp] & ->)]; rewrite Hrag.
  - cbn. split_and!; try done; intros; lia.
  - rewrite Hp. cbn. split_and!; try done; intros; lia.
Qed.

(** X18: for a job id that is not stored, [get_status] raises
    [HTTPException] 404 and [handle_payment_status] raises [KeyError] out of
    its own [except] branch; both leave the state as it was. *)
Theorem unknown_job_is_an_error rag cp check j pid s :
  jobs s !! j = None →
  runM (get_status check j) s
  = (Raise (HTTPException 404 (py "Job not found")), s)
  ∧ runM (handle_payment_status rag cp j pid) s = (Raise (KeyError j), s).
Proof.
  intros Hj. split.
  - by apply get_status_unknown_job.
  - by apply handle_unknown_job.
Qed.

(** X19: an operation changes nothing of a job other than its own: the job
    record, the payment instance, the status history and the counts of RAG
    runs and [complete_payment] calls of every other job id are as before. *)
Theorem other_jobs_untouched s o j :
  j ≠ target o →
  jobs (step s o) !! j = jobs s !! j
  ∧ payment_instances (step s o) !! j = payment_instances s !! j
  ∧ status_history j (trace (step s o)) = status_history j (trace s)
  ∧ complete_calls j (trace (step s o)) = complete_calls j (trace s)
  ∧ rag_runs j (trace (step s o)) = rag_runs j (trace s).
Proof.
  intros Hne. destruct o as [env io data|rag cp j0 pid|check j0];
    cbn [step target] in *.
  - rewrite start_job_state.
    destruct (admitted io data) as [[hash bid]|e];
      cbn [jobs payment_instances trace];
      rewrite status_history_app, complete_calls_app, rag_runs_app.
    + rewrite !lookup_insert_ne by done. cbn.
      rewrite decide_False by done. cbn. by rewrite app_nil_r.
    + destruct (_ && _); cbn; by rewrite app_nil_r.
  - destruct (jobs s !! j0) as [job0|] eqn:Hj0.
    2: { by rewrite handle_unknown_job. }
    rewrite (handle_known_job _ _ _ _ _ _ Hj0).
    cbn [snd jobs payment_instances trace].
    rewrite status_history_app, status_history_confirmation.
    rewrite complete_calls_app, complete_calls_confirmation.
    rewrite rag_runs_app, rag_runs_confirmation.
    rewrite !decide_False by done.
    rewrite lookup_insert_ne, lookup_delete_ne, app_nil_r by done.
    by rewrite !Nat.add_0_r.
  - destruct (jobs s !! j0) as [job0|] eqn:Hj0.
    2: { by rewrite get_status_unknown_job. }
    rewrite (get_status_known_job _ _ _ _ Hj0).
    destruct (payment_instances s !! j0);
      cbn [snd jobs payment_instances trace]; [|done].
    rewrite status_history_app, complete_calls_app, rag_runs_app.
    rewrite lookup_insert_ne by done. cbn. by rewrite app_nil_r.
Qed.

(** X20: after any run, a status query for a [completed] or [failed] job
    returns the stored status, payment status and result and leaves the state
    as it was: the payment provider is not asked. *)
Theorem status_of_finished_job_is_read_only ops j job check :
  let s := run ops initial in
  jobs s !! j = Some job → terminal (status job) = true →
  runM (get_status check j) s
  = (Ok (mkStatusResponse j (status job) (payment_status job) (result job)), s).
Proof.
  intros s Hjob Hterm.
  pose proof (job_consistent_run ops initial job_consistent_initial j) as Hc.
  fold s in Hc. unfold job_consistent in Hc. rewrite Hjob in Hc.
  rewrite (get_status_known_job _ _ _ _ Hjob).
  assert (payment_instances s !! j = None) as ->; [|done].
  destruct Hc as [Hc _]. destruct (status job); try done; tauto.
Qed.

Lemma admitted_Ok io data hash pr rd bid :
  is_Some (req_input_data data !! py "question") →
  new_payment io = Ok hash →
  create_payment_request io = Ok pr →
  py_getitem pr (py "data") = Ok rd →
  py_getitem rd (py "blockchainIdentifier") = Ok bid →
  hashable bid = true →
  admitted io data = Ok (hash, bid).
Proof.
  intros Hq Hnew Hcreate Hdata Hbid Hhash.
  unfold admitted. rewrite (bool_decide_eq_true_2 _ Hq). cbn.
  rewrite Hnew. cbn. rewrite Hcreate. cbn. rewrite Hdata. cbn.
  rewrite Hbid. cbn. by rewrite Hhash.
Qed.

(** X21: after any run, a stored job has a payment instance exactly when
    its status is [awaiting_payment], and an id without job has none. *)
Theorem payment_instance_iff_awaiting ops j :
  let s := run ops initial in
  match jobs s !! j with
  | None => payment_instances s !! j = None
  | Some job =>
      (is_Some (payment_instances s !! j) ↔ status job = awaiting_payment)
  end.
Proof.
  cbv zeta. change (payment_iff_awaiting (run ops initial) j).
  by apply payment_iff_awaiting_run.
Qed.

Lemma step_keeps_job s o j job :
  jobs s !! j = Some job →
  ∃ job',
    jobs (step s o) !! j = Some job'
    ∧ (j ∉ started [o] →
       input_data job' = input_data job
       ∧ identifier_from_purchaser job' = identifier_from_purchaser job
       ∧ blockchain_identifier job' = blockchain_identifier job).
Proof.
  intros Hj. destruct o as [env io data|rag cp j0 pid|check j0]; cbn [step].
  - rewrite start_job_state.
    destruct (admitted io data) as [[hash bid]|e]; cbn [jobs]; [|by eexists].
    destruct (decide (uuid4 io = j)) as [<-|Hne].
    + rewrite lookup_insert_eq. eexists. split; [done|]. cbn. set_solver.
    + rewrite lookup_insert_ne by done. by eexists.
  - destruct (jobs s !! j0) as [job0|] eqn:Hj0.
    2: { rewrite handle_unknown_job by done. by eexists. }
    rewrite (handle_known_job _ _ _ _ _ _ Hj0). cbn [snd jobs].
    destruct (decide (j0 = j)) as [<-|Hne].
    + rewrite lookup_insert_eq. eexists. split; [done|]. intros _.
      rewrite Hj0 in Hj. injection Hj as ->.
      by destruct (confirmation_outcome _ _ _ _).
    + rewrite lookup_insert_ne by done. by eexists.
  - destruct (jobs s !! j0) as [job0|] eqn:Hj0.
    2: { rewrite get_status_unknown_job by done. by eexists. }
    rewrite (get_status_known_job _ _ _ _ Hj0).
    destruct (payment_instances s !! j0); cbn [snd jobs]; [|by eexists].
    destruct (decide (j0 = j)) as [<-|Hne].
    + rewrite lookup_insert_eq. eexists. split; [done|]. intros _.
      rewrite Hj0 in Hj. by injection Hj as ->.
    + rewrite lookup_insert_ne by done. by eexists.
Qed.

(** X22: no operation removes a job: a stored job is stored after any run,
    and unless its id is drawn again by [start_job], its input data, purchaser
    identifier and blockchain identifier are as they were. *)
Theorem jobs_are_never_removed ops : ∀ s j job,
  jobs s !! j = Some job →
  ∃ job',
    jobs (run ops s) !! j = Some job'
    ∧ (j ∉ started ops →
       input_data job' = input_data job
       ∧ identifier_from_purchaser job' = identifier_from_purchaser job
       ∧ blockchain_identifier job' = blockchain_identifier job).
Proof.
  induction ops as [|o ops IH]; intros s j job Hj.
  { exists job. by cbn. }
  destruct (step_keeps_job s o j job Hj) as (job1 & Hj1 & Hf1).
  destruct (IH (step s o) j job1 Hj1) as (job' & Hj' & Hf').
  exists job'. split; [done|]. intros Hnot.
  assert ((j ∉ started [o]) ∧ (j ∉ started ops)) as [H1 H2].
  { destruct o; cbn in *; set_solver. }
  destruct (Hf1 H1) as (E1 & E2 & E3). destruct (Hf' H2) as (F1 & F2 & F3).
  split_and!; congruence.
Qed.

(** X23: a request whose question is the empty string passes [start_job]:
    the job is stored and a payment request is made.  When its payment is
    confirmed, the RAG task refuses the question: the job is [failed] with the
    error "Question missing from input_data", has no result, and
    [complete_payment] has not been invoked. *)
Theorem empty_question_fails_after_payment env io data s hash pr rd bid
    json_loads float_repr get_embedding generate_content vector_store cp pid :
  req_input_data data !! py "question" = Some [] →
  new_payment io = Ok hash →
  create_payment_request io = Ok pr →
  py_getitem pr (py "data") = Ok rd →
  py_getitem rd (py "blockchainIdentifier") = Ok bid →
  hashable bid = true →
  let job_id := uuid4 io in
  let s1 := step s (StartJob env io data) in
  let s2 := step s1 (PaymentConfirmed
                       (execute_rag_task json_loads float_repr get_embedding
                          generate_content vector_store)
                       cp job_id pid) in
  jobs s1 !! job_id = Some (new_job data bid)
  ∧ EvCreatePaymentRequest job_id ∈ trace s1
  ∧ jobs s2 !! job_id
    = Some (mkJob failed (PStr (py "pending")) bid (req_input_data data) None
              (req_identifier_from_purchaser data)
              (Some (py "Question missing from input_data")))
  ∧ complete_calls job_id (trace s2) = complete_calls job_id (trace s).
Proof.
  intros Hq Hnew Hcreate Hdata Hbid Hhash job_id s1 s2.
  assert (jobs s1 !! job_id = Some (new_job data bid)
          ∧ trace s1 = trace s ++ [EvCreatePaymentRequest job_id;
                                   EvStatus job_id awaiting_payment;
                                   EvStartMonitoring job_id])
    as [Hjob Htrace].
  { unfold s1. cbn [step]. rewrite start_job_state.
    rewrite (admitted_Ok io data hash pr rd bid) by (rewrite ?Hq; eauto).
    cbn [jobs trace]. by rewrite lookup_insert_eq. }
  split_and!; [done|rewrite Htrace; set_solver| |].
  - unfold s2. cbn [step]. rewrite (handle_known_job _ _ _ _ _ _ Hjob).
    cbn [snd jobs]. rewrite lookup_insert_eq. f_equal.
    unfold execute_rag_task. cbn [input_data new_job]. rewrite Hq. done.
  - unfold s2. cbn [step]. rewrite (handle_known_job _ _ _ _ _ _ Hjob).
    cbn [snd trace]. rewrite complete_calls_app, complete_calls_confirmation.
    rewrite decide_True by done.
    unfold execute_rag_task. cbn [input_data new_job]. rewrite Hq, Htrace.
    rewrite complete_calls_app. cbn. lia.
Qed.

Lemma start_monitoring_calls_app j tr1 tr2 :
  start_monitoring_calls j (tr1 ++ tr2) = (start_monitoring_calls j tr1 + start_monitoring_calls j tr2)%nat.
Proof. unfold start_monitoring_calls. by rewrite List.filter_app, length_app. Qed.

Lemma stop_monitoring_calls_app j tr1 tr2 :
  stop_monitoring_calls j (tr1 ++ tr2) = (stop_monitoring_calls j tr1 + stop_monitoring_calls j tr2)%nat.
Proof. unfold stop_monitoring_calls. by rewrite List.filter_app, length_app. Qed.

Lemma monitor_confirmation j j0 rag p cp pid :
  start_monitoring_calls j (confirmation_events rag p cp j0 pid) = 0%nat
  ∧ stop_monitoring_calls j (confirmation_events rag p cp j0 pid)
    = if decide (j0 = j)
      then match p with Some _ => 1%nat | None => 0%nat end
      else 0%nat.
Proof.
  unfold confirmation_events, start_monitoring_calls, stop_monitoring_calls.
  destruct (decide (j0 = j)) as [->|Hne];
    destruct rag as [r|e], p as [p|]; cbn;
    rewrite ?bool_decide_eq_true_2, ?bool_decide_eq_false_2 by done; done.
Qed.

Lemma confirmed_job_terminal job out : terminal (status (confirmed_job job out)) = true.
Proof. by destruct out. Qed.

Lemma monitor_ok_step s o :
  fresh_for o s → (∀ j, monitor_ok s j) → ∀ j, monitor_ok (step s o) j.
Proof.
  intros Hfresh Inv j. specialize (Inv j) as Hj. unfold monitor_ok in *.
  cbn zeta in *.
  destruct o as [env io data|rag cp j0 pid|check j0]; cbn [step].
  - cbn in Hfresh. rewrite start_job_state.
    destruct (admitted io data) as [[hash bid]|e];
      cbn [jobs payment_instances trace];
      rewrite start_monitoring_calls_app, stop_monitoring_calls_app.
    + destruct (decide (uuid4 io = j)) as [Heq|Hne]; [subst j|].
      * rewrite !lookup_insert_eq. rewrite Hfresh in Hj.
        destruct Hj as (_ & -> & ->). cbn.
        rewrite bool_decide_eq_true_2 by done. cbn.
        split; [done|]. left. split_and!; [by eexists|done|done].
      * rewrite !lookup_insert_ne by done. cbn.
        rewrite bool_decide_eq_false_2 by done. cbn.
        by rewrite !Nat.add_0_r.
    + destruct (_ && _); cbn; by rewrite !Nat.add_0_r.
  - destruct (jobs s !! j0) as [job0|] eqn:Hj0.
    2: { by rewrite handle_unknown_job. }
    rewrite (handle_known_job _ _ _ _ _ _ Hj0).
    cbn [snd jobs payment_instances trace].
    rewrite start_monitoring_calls_app, stop_monitoring_calls_app.
    destruct (monitor_confirmation j j0 (rag (input_data job0))
                (payment_instances s !! j0) cp pid) as [-> ->].
    destruct (decide (j0 = j)) as [Heq|Hne]; [subst j0|].
    + rewrite lookup_insert_eq, lookup_delete_eq. rewrite Hj0 in Hj.
      destruct Hj as [Hstart [([p Hp] & _ & Hstop)|(Hp & _ & Hstop)]];
        rewrite Hp; (split; [lia|]); right;
        (split_and!; [done|apply confirmed_job_terminal|lia]).
    + rewrite lookup_insert_ne, lookup_delete_ne by done.
      by rewrite !Nat.add_0_r.
  - destruct (jobs s !! j0) as [job0|] eqn:Hj0.
    2: { by rewrite get_status_unknown_job. }
    rewrite (get_status_known_job _ _ _ _ Hj0).
    destruct (payment_instances s !! j0) as [p|] eqn:Hp;
      cbn [snd jobs payment_instances trace]; [|done].
    rewrite start_monitoring_calls_app, stop_monitoring_calls_app. cbn.
    rewrite !Nat.add_0_r.
    destruct (decide (j0 = j)) as [Heq|Hne]; [subst j0|].
    + rewrite lookup_insert_eq. rewrite Hj0 in Hj. cbn. done.
    + by rewrite lookup_insert_ne.
Qed.

Lemma monitor_ok_run ops : ∀ s,
  NoDup (started ops) →
  (∀ j, j ∈ started ops → jobs s !! j = None) →
  (∀ j, monitor_ok s j) → ∀ j, monitor_ok (run ops s) j.
Proof.
  induction ops as [|o ops IH]; intros s Hnd Hfresh Inv; [done|].
  cbn. apply IH.
  - destruct o; cbn in Hnd; [by apply NoDup_cons in Hnd as [_ ?]|done..].
  - intros j Hj. apply step_jobs_None.
    + apply Hfresh. destruct o; cbn; [by apply elem_of_cons; right|done..].
    + destruct o; cbn; [|set_solver..].
      cbn in Hnd. apply NoDup_cons in Hnd as [Hnot _]. set_solver.
  - apply monitor_ok_step; [|done].
    destruct o; cbn; [|done..]. apply Hfresh. cbn. set_solver.
Qed.

(** X24: in every run in which no uuid is drawn twice,
    [start_status_monitoring] has been called exactly once for a stored job,
    whether the call returned or raised; [stop_status_monitoring] has been
    called exactly once if the job is [completed] or [failed] and not at all
    while the job awaits payment; for an id without job
    [start_status_monitoring] was not called. *)
Theorem monitoring_called_once ops j :
  NoDup (started ops) →
  let s := run ops initial in
  match jobs s !! j with
  | None => start_monitoring_calls j (trace s) = 0%nat
  | Some job =>
      start_monitoring_calls j (trace s) = 1%nat
      ∧ stop_monitoring_calls j (trace s)
        = if terminal (status job) then 1%nat else 0%nat
  end.
Proof.
  intros Hnd s.
  pose proof (monitor_ok_run ops initial Hnd (λ _ _, eq_refl)
                (λ _, ltac:(done)) j) as H.
  fold s in H. unfold monitor_ok in H. cbn zeta in H.
  destruct (jobs s !! j) as [job|]; [|tauto].
  destruct H as [-> [(_ & -> & ->)|(_ & -> & ->)]]; done.
Qed.

End Properties.

(** * The properties on the examples

    The witnesses of the properties and the runs that contradict the
    specification, with the tables of the examples. *)

Section Examples.

#[local] Existing Instance demo_float32.
#[local] Existing Instance demo_unicode.


(** Against C1 as stated: a job is started and its payment confirmation is
    processed, the job is [completed]; the same confirmation processed once
    more runs the RAG task a second time. *)
Lemma duplicate_confirmation_reruns_task :
  let s1 := run demo_run initial in
  let s2 := step s1 demo_confirmation in
  status <$> jobs s1 !! demo_job_id = Some completed
  ∧ rag_runs demo_job_id (trace s1) = 1%nat
  ∧ rag_runs demo_job_id (trace s2) = 2%nat.
Proof. vm_compute. done. Qed.

Lemma complete_payment_at_most_once_witness :
  NoDup (started demo_run)
  ∧ (complete_calls demo_job_id (trace (run demo_run initial)) ≤ 1)%nat.
Proof.
  assert (NoDup (started demo_run)) as Hnd.
  { apply NoDup_singleton. }
  split; [exact Hnd|].
  exact (proj1 (complete_payment_at_most_once demo_run Hnd demo_job_id)).
Defined.

(** Against C2 as stated: the duplicate confirmation is not rejected; the
    [completed] job becomes [failed], its status having gone through
    [running] again, against the order of §4.4. *)
Lemma terminal_status_changes :
  let s1 := run demo_run initial in
  let s2 := step s1 demo_confirmation in
  status <$> jobs s1 !! demo_job_id = Some completed
  ∧ status <$> jobs s2 !! demo_job_id = Some failed
  ∧ chain legal_transition (status_history demo_job_id (trace s2)) = false.
Proof. vm_compute. done. Qed.

Lemma status_follows_confirmations_witness :
  NoDup (started demo_run)
  ∧ status_history demo_job_id
      (trace (step (run demo_run initial) demo_confirmation))
    = [awaiting_payment; running; completed; running; failed].
Proof.
  assert (NoDup (started demo_run)) as Hnd.
  { apply NoDup_singleton. }
  split; [exact Hnd|].
  destruct (status_follows_confirmations demo_run Hnd demo_job_id)
    as (_ & _ & _ & Hconfirm & _ & _).
  destruct (Hconfirm
              (mkJob completed (PStr (py "completed")) (PStr (py "chain-id-1"))
                 (req_input_data demo_request) (Some demo_answer)
                 (py "purchaser-1") None)
              (λ _, Ok demo_answer) (Ok ()) (py "chain-id-1"))
    as (v & Hhist & _ & _ & _ & Hterm).
  - vm_compute. reflexivity.
  - rewrite (Hterm eq_refl) in Hhist. exact Hhist.
Defined.

(** Against C3 as stated: after the duplicate confirmation the job is
    [failed] and has both a result and an error. *)
Lemma result_and_error_both_set :
  let s := run (demo_run ++ [demo_confirmation]) initial in
  ∃ job, jobs s !! demo_job_id = Some job
         ∧ status job = failed ∧ is_Some (result job) ∧ is_Some (error job).
Proof. eexists. split; [vm_compute; reflexivity|]. cbn. eauto. Qed.

Lemma result_error_of_terminal_job_witness :
  ∃ job, jobs (run demo_run initial) !! demo_job_id = Some job
         ∧ status job = completed
         ∧ is_Some (result job) ∧ error job = None.
Proof.
  eexists. split; [vm_compute; reflexivity|]. split; [reflexivity|].
  refine (proj1 (proj2 (result_error_of_terminal_job demo_run demo_job_id _ _)) _).
  - vm_compute. reflexivity.
  - reflexivity.
Defined.

Lemma start_job_requires_question_witness :
  req_input_data demo_request_without_question !! py "question" = None
  ∧ ∃ detail,
      runM (start_job demo_env demo_io demo_request_without_question) initial
      = (Raise (HTTPException 400 detail), initial).
Proof.
  assert (req_input_data demo_request_without_question !! py "question" = None)
    as H by (vm_compute; reflexivity).
  split; [exact H|].
  destruct (start_job_requires_question demo_env demo_io
              demo_request_without_question initial H) as (detail & Hrun & _).
  exists detail. exact Hrun.
Defined.

Lemma get_status_always_answers_witness :
  ∃ resp s',
    runM (get_status (Raise (Exception (py "payment service unreachable")))
            demo_job_id) demo_awaiting = (Ok resp, s')
    ∧ st_job_id resp = demo_job_id.
Proof.
  destruct (get_status_always_answers
              (Raise (Exception (py "payment service unreachable")))
              demo_job_id demo_awaiting
              (mkJob awaiting_payment (PStr (py "pending"))
                     (PStr (py "chain-id-1")) (req_input_data demo_request) None
                     (py "purchaser-1") None))
    as (resp & s' & Hrun & Hid & _).
  - vm_compute. reflexivity.
  - exists resp, s'. split; [exact Hrun|exact Hid].
Defined.

Lemma get_status_overwrites_payment_status_witness :
  ∃ job',
    jobs (step demo_awaiting (GetStatus (Ok demo_funds_locked) demo_job_id))
    !! demo_job_id = Some job'
    ∧ payment_status job' = PStr (py "FundsLocked")
    ∧ status job' = awaiting_payment.
Proof.
  destruct (get_status_overwrites_payment_status
              (Ok demo_funds_locked) demo_job_id demo_awaiting
              (mkJob awaiting_payment (PStr (py "pending"))
                     (PStr (py "chain-id-1")) (req_input_data demo_request) None
                     (py "purchaser-1") None))
    as (job' & Hjobs & _ & _ & Hst & _ & _ & _ & _ & _ & Hv & _).
  - vm_compute. reflexivity.
  - vm_compute. eauto.
  - exists job'. split; [|split; [|exact Hst]].
    + rewrite Hjobs. apply lookup_insert_eq.
    + eapply Hv; reflexivity.
Defined.

Lemma search_returns_k_witness :
  ∃ rs, VectorStore.search (VectorStore.run demo_uploads VectorStore.init)
          (unit_vector 0) 3 = Ok rs
        ∧ length rs = 3%nat.
Proof.
  destruct (search_returns_k demo_uploads (unit_vector 0) 3)
    as (rs & Hrs & Hlen & _).
  - vm_compute. discriminate.
  - vm_compute. reflexivity.
  - lia.
  - exists rs. split; [exact Hrs|exact Hlen].
Defined.

Lemma demo_uploads_exact :
  in_exact_range (unit_vector 0)
    (faiss.xb (VectorStore.index (VectorStore.run demo_uploads VectorStore.init))).
Proof. repeat constructor. Defined.

Lemma search_returns_nearest_witness :
  ∃ ids, VectorStore.search (VectorStore.run demo_uploads VectorStore.init)
           (unit_vector 0) 1
         = Ok (fragments_at
                 (VectorStore.chunks (VectorStore.run demo_uploads VectorStore.init))
                 ids)
         ∧ length ids = 1%nat.
Proof.
  destruct (search_returns_nearest demo_uploads (unit_vector 0) 1)
    as (ids & Hs & Hlen & _).
  - exact demo_uploads_exact.
  - vm_compute. reflexivity.
  - vm_compute. split; [reflexivity|discriminate].
  - exists ids. split; [exact Hs|exact Hlen].
Defined.

Lemma search_pads_with_last_chunk_witness :
  ∃ ids, VectorStore.search (VectorStore.run demo_uploads VectorStore.init)
           (unit_vector 0) 5
         = Ok (fragments_at
                 (VectorStore.chunks (VectorStore.run demo_uploads VectorStore.init))
                 ids
               ++ replicate 3 (py "near")).
Proof.
  destruct (search_pads_with_last_chunk demo_uploads (unit_vector 0) 5)
    as (ids & Hs & _).
  - exact demo_uploads_exact.
  - vm_compute. reflexivity.
  - vm_compute. discriminate.
  - vm_compute. reflexivity.
  - exists ids. exact Hs.
Defined.

Lemma demo_document_indexable :
  Forall (indexable demo_get_embedding) (chunk_text demo_document).
Proof.
  rewrite Forall_forall. intros c _. exists (unit_vector 0).
  split; [reflexivity|vm_compute; reflexivity].
Defined.

Lemma upload_pdf_indexes_document_witness :
  ∃ s', upload_pdf (Ok ()) (Ok demo_document) demo_get_embedding VectorStore.init
        = (Ok (mkUploadResponse (py "PDF uploaded and indexed successfully") 2), s')
        ∧ VectorStore.chunks s' = chunk_text demo_document.
Proof.
  destruct (upload_pdf_indexes_document demo_get_embedding demo_document
              VectorStore.init well_formed_init demo_document_indexable)
    as (s' & embs & Hrun & Hcs & _).
  exists s'. split; [exact Hrun|exact Hcs].
Defined.



Lemma rag_result_is_ascii_json_witness :
  Forall printable (answer_of_response demo_json_loads demo_float_repr demo_text).
Proof.
  refine (proj1 (rag_result_is_ascii_json demo_json_loads demo_float_repr
                   demo_get_embedding demo_generate_content one_record
                   (req_input_data demo_request) _ _ _)).
  - intros f. by apply py_literal_printable.
  - vm_compute. reflexivity.
Defined.

Lemma execute_rag_task_succeeds_witness :
  is_Ok (execute_rag_task demo_json_loads demo_float_repr demo_get_embedding
           demo_generate_content (VectorStore.run demo_uploads VectorStore.init)
           (req_input_data demo_request)) = true.
Proof.
  destruct (execute_rag_task_succeeds demo_json_loads demo_float_repr
              demo_get_embedding demo_generate_content demo_uploads
              (req_input_data demo_request)
              (py "What is the capital of France?") (unit_vector 0))
    as (cc & text & _ & _ & _ & ->).
  - vm_compute. reflexivity.
  - vm_compute. discriminate.
  - reflexivity.
  - left. vm_compute. reflexivity.
  - intros context. reflexivity.
  - reflexivity.
Defined.

Lemma start_job_then_status_witness :
  ∃ resp s1,
    runM (start_job demo_env demo_io demo_request) initial = (Ok resp, s1)
    ∧ resp_job_id resp = demo_job_id.
Proof.
  destruct (start_job_then_status demo_env demo_io demo_request initial
              (py "hash-1") demo_payment_request demo_request_data
              (PStr (py "chain-id-1")) (PStr (py "1700000600"))
              (PStr (py "1700001200")) (PStr (py "1700001800"))
              (PStr (py "1700000300")) (Ok PNone))
    as (resp & s1 & Hrun & Hid & _);
    try (vm_compute; reflexivity).
  - vm_compute. eauto.
  - exists resp, s1. split; [exact Hrun|exact Hid].
Defined.

Lemma start_job_failure_after_storing_witness :
  ∃ detail s1,
    runM (start_job demo_env demo_io_without_monitor demo_request) initial
    = (Raise (HTTPException 400 detail), s1)
    ∧ jobs s1 !! demo_job_id = Some demo_job.
Proof.
  destruct (start_job_failure_after_storing demo_env demo_io_without_monitor
              demo_request initial (py "hash-1") demo_payment_request
              demo_request_data (PStr (py "chain-id-1"))
              (Exception (py "event loop closed")))
    as (detail & s1 & Hrun & Hjob & _);
    try (vm_compute; reflexivity).
  - vm_compute. eauto.
  - left. reflexivity.
  - exists detail, s1. split; [exact Hrun|exact Hjob].
Defined.

Lemma demo_awaiting_job : jobs demo_awaiting !! demo_job_id = Some demo_job.
Proof. vm_compute. reflexivity. Defined.

Lemma confirmation_completes_job_witness :
  trace (step demo_awaiting demo_confirmation)
  = trace demo_awaiting
    ++ [EvStatus demo_job_id running; EvRagTask demo_job_id;
        EvCompletePayment demo_job_id (py "chain-id-1") demo_answer;
        EvStatus demo_job_id completed; EvStopMonitoring demo_job_id].
Proof.
  refine (proj1 (proj2 (proj2
    (confirmation_completes_job (λ _, Ok demo_answer) demo_job_id
       (py "chain-id-1") demo_awaiting demo_job
       (mkPayment (Some (py "agent-1")) (py "purchaser-1")
          (req_input_data demo_request) (Some (py "Preprod")) (py "hash-1")
          [PStr (py "chain-id-1")])
       demo_answer (Ok PNone) demo_awaiting_job _ _)))).
  - vm_compute. reflexivity.
  - reflexivity.
Defined.

Lemma confirmation_fails_job_witness :
  payment_instances
    (step demo_awaiting
       (PaymentConfirmed (λ _, Raise (Exception (py "model overloaded")))
          (Ok ()) demo_job_id (py "chain-id-1")))
  = delete demo_job_id (payment_instances demo_awaiting).
Proof.
  refine (proj1 (proj2
    (confirmation_fails_job (λ _, Raise (Exception (py "model overloaded")))
       (Ok ()) demo_job_id (py "chain-id-1") demo_awaiting demo_job
       (Exception (py "model overloaded")) demo_awaiting_job _))).
  left. reflexivity.
Defined.

Lemma unknown_job_is_an_error_witness :
  runM (get_status (Ok PNone) demo_other_job_id) demo_awaiting
  = (Raise (HTTPException 404 (py "Job not found")), demo_awaiting).
Proof.
  refine (proj1 (unknown_job_is_an_error (λ _, Ok demo_answer) (Ok ()) (Ok PNone)
                   demo_other_job_id [] demo_awaiting _)).
  vm_compute. reflexivity.
Defined.

Lemma other_jobs_untouched_witness :
  jobs (step demo_awaiting
          (GetStatus (Ok PNone) demo_other_job_id)) !! demo_job_id
  = jobs demo_awaiting !! demo_job_id.
Proof.
  refine (proj1 (other_jobs_untouched demo_awaiting
                   (GetStatus (Ok PNone) demo_other_job_id) demo_job_id _)).
  vm_compute. discriminate.
Defined.

Lemma status_of_finished_job_is_read_only_witness :
  ∃ st, runM (get_status (Ok PNone) demo_job_id) (run demo_run initial)
        = (Ok st, run demo_run initial)
        ∧ st_status st = completed.
Proof.
  eexists. split.
  - refine (status_of_finished_job_is_read_only demo_run demo_job_id
              (mkJob completed (PStr (py "completed")) (PStr (py "chain-id-1"))
                 (req_input_data demo_request) (Some demo_answer)
                 (py "purchaser-1") None)
              (Ok PNone) _ _).
    + vm_compute. reflexivity.
    + reflexivity.
  - reflexivity.
Defined.

Lemma jobs_are_never_removed_witness :
  is_Some (jobs (run [demo_confirmation; demo_confirmation] demo_awaiting)
           !! demo_job_id).
Proof.
  destruct (jobs_are_never_removed [demo_confirmation; demo_confirmation]
              demo_awaiting demo_job_id demo_job demo_awaiting_job)
    as (job' & Hjob & _).
  exists job'. exact Hjob.
Defined.

Lemma empty_question_fails_after_payment_witness :
  jobs (step initial (StartJob demo_env demo_io demo_request_empty_question))
  !! demo_job_id
  = Some (new_job demo_request_empty_question (PStr (py "chain-id-1"))).
Proof.
  refine (proj1 (empty_question_fails_after_payment demo_env demo_io
                   demo_request_empty_question initial (py "hash-1")
                   demo_payment_request demo_request_data
                   (PStr (py "chain-id-1")) demo_json_loads demo_float_repr
                   demo_get_embedding demo_generate_content one_record (Ok ())
                   (py "chain-id-1") _ _ _ _ _ _));
    vm_compute; reflexivity.
Defined.

Lemma monitoring_called_once_witness :
  stop_monitoring_calls demo_job_id (trace (run (demo_run ++ [demo_confirmation]) initial))
  = 1%nat.
Proof.
  assert (NoDup (started (demo_run ++ [demo_confirmation]))) as Hnd.
  { apply NoDup_singleton. }
  pose proof (monitoring_called_once (demo_run ++ [demo_confirmation])
                demo_job_id Hnd) as H.
  cbv zeta in H.
  destruct (jobs (run (demo_run ++ [demo_confirmation]) initial) !! demo_job_id)
    as [job|] eqn:Hjob.
  - destruct H as [_ Hstops]. rewrite Hstops.
    vm_compute in Hjob. injection Hjob as <-. reflexivity.
  - vm_compute in Hjob. discriminate.
Defined.

End Examples.
